(** * TICTACTOE: the game engine over a conditional-write store

    A shallow embedding of [dynamodb/gameController.py], [models/game.py]
    and the engine part of the handlers of [application.py].

    - A DynamoDB item is a finite map from attribute names to string
      values (every attribute of the Games table has type S).
    - The Games table is a finite map from GameId to item; the database
      is [None] while the table has not been created.
    - Python exceptions are values of [exn]; a call either returns or
      raises ([py]).  Store calls are atomic: a call that raises leaves
      the database as it was.
    - The store is reached through boto ([Table], [Item], the layer-1
      connection); [Dynamo] and [Boto] below give the calls the
      controller makes the meaning they have there: conditional writes
      on one record, item objects that remember what they were loaded
      with, index queries by hash key and range key prefix.
    - [datetime.now()] and [uuid4()] are inputs of the functions that
      call them. *)

From stdpp Require Import gmap strings list fin_maps sorting.
From Stdlib Require Import String Ascii OrderedTypeEx.

Open Scope string_scope.

(** ** Exceptions and results *)

(** The exceptions the code meets.  [JSONResponseError type] is a fault
    of the store other than the two named ones, with the [__type] of its
    body. *)
Inductive exn : Type :=
  | ConditionalCheckFailedException
  | ValidationException
  | ItemNotFound
  | JSONResponseError (type : string)
  | StopIteration
  | IndexError
  | AttributeError
  | TypeError
  | KeyError.

Inductive py (A : Type) : Type :=
  | Ret (a : A)
  | Raise (e : exn).
Arguments Ret {A} a.
Arguments Raise {A} e.

#[global] Instance py_ret : MRet py := @Ret.
#[global] Instance py_bind : MBind py := λ A B k c,
  match c with
  | Ret a => k a
  | Raise e => Raise e
  end.

Abbreviation Item := (gmap string string).
Abbreviation Table := (gmap string (gmap string string)).
Abbreviation DB := (option (gmap string (gmap string string))).

(** ** The store: DynamoDB's single-item conditional writes *)

Module Dynamo.

Definition ResourceNotFound : string :=
  "com.amazonaws.dynamodb.v20120810#ResourceNotFoundException".

(** One entry of an [expected] dictionary. *)
Inductive Expected : Type :=
  | BEGINS_WITH (p : string)   (* ComparisonOperator BEGINS_WITH *)
  | Value (v : string)         (* {"Value": {"S": v}} *)
  | Exists_False.              (* {"Exists": False} *)

Definition holds (e : Expected) (a : option string) : bool :=
  match e, a with
  | BEGINS_WITH p, Some s => String.prefix p s
  | Value v, Some s => bool_decide (s = v)
  | Exists_False, None => true
  | _, _ => false
  end.

(** All expectations are evaluated on the record currently stored under
    the key; a key with no record has no attribute. *)
Definition check (expected : gmap string Expected) (rec : Item) : bool :=
  bool_decide (map_Forall (λ k e, holds e (rec !! k) = true) expected).

(** A key attribute must be a non-empty string. *)
Definition valid_key (key : option string) : option string :=
  match key with
  | Some g => if bool_decide (g = "") then None else Some g
  | None => None
  end.

Definition current (tbl : Table) (g : string) : Item :=
  default ∅ (tbl !! g).

(** UpdateItem with PUT actions: the written attributes replace or
    extend the record, the others stay; with no record under the key
    the update creates one. *)
Definition update_item (db : DB) (key : option string)
    (attribute_updates : gmap string (option string))
    (expected : gmap string Expected) : py DB :=
  match valid_key key with
  | None => Raise ValidationException
  | Some g =>
    if bool_decide (map_Forall (λ _ v, is_Some v) attribute_updates) then
      match db with
      | None => Raise (JSONResponseError ResourceNotFound)
      | Some tbl =>
        if check expected (current tbl g)
        then Ret (Some (<[g := omap id attribute_updates ∪
                                 default {["GameId" := g]} (tbl !! g)]> tbl))
        else Raise ConditionalCheckFailedException
      end
    else Raise ValidationException   (* a PUT without a value *)
  end.

Definition delete_item (db : DB) (key : option string)
    (expected : gmap string Expected) : py DB :=
  match valid_key key with
  | None => Raise ValidationException
  | Some g =>
    match db with
    | None => Raise (JSONResponseError ResourceNotFound)
    | Some tbl =>
      if check expected (current tbl g)
      then Ret (Some (delete g tbl))
      else Raise ConditionalCheckFailedException
    end
  end.

(** PutItem replaces the whole record. *)
Definition put_item (db : DB) (data : Item)
    (expected : gmap string Expected) : py DB :=
  match valid_key (data !! "GameId") with
  | None => Raise ValidationException
  | Some g =>
    match db with
    | None => Raise (JSONResponseError ResourceNotFound)
    | Some tbl =>
      if check expected (current tbl g)
      then Ret (Some (<[g := data]> tbl))
      else Raise ConditionalCheckFailedException
    end
  end.

Definition get_item (db : DB) (g : string) : py Item :=
  match db with
  | None => Raise (JSONResponseError ResourceNotFound)
  | Some tbl =>
    match tbl !! g with
    | Some rec => Ret rec
    | None => Raise ItemNotFound
    end
  end.

End Dynamo.

(** ** boto's item objects and result sets *)

Module Boto.
Import Dynamo.

(** An item object keeps the attributes it was loaded with next to its
    current ones; [save] compares the two. *)
Record ItemObj : Type := mkItem { data : Item; orig_data : Item }.

(** [Item(table, data=d)]: a new object, nothing loaded. *)
Definition new_item (d : Item) : ItemObj := mkItem d ∅.

(** An object returned by [get_item] or by a query. *)
Definition loaded (d : Item) : ItemObj := mkItem d d.

(** [item[k]]: the value, or None when the attribute is missing. *)
Definition getitem (item : ItemObj) (k : string) : option string :=
  data item !! k.

(** [item[k] = v]; a None value is not storable, the model drops the
    attribute. *)
Definition setitem (item : ItemObj) (k : string) (v : option string)
  : ItemObj :=
  match v with
  | Some x => mkItem (<[k:=x]> (data item)) (orig_data item)
  | None => mkItem (delete k (data item)) (orig_data item)
  end.

(** [build_expects]: a loaded attribute must still hold the value it
    was loaded with, a new attribute must not exist. *)
Definition build_expects (item : ItemObj) : gmap string Expected :=
  merge (λ d o,
           match o, d with
           | Some v, _ => Some (Value v)
           | None, Some _ => Some Exists_False
           | None, None => None
           end) (data item) (orig_data item).

Definition needs_save (item : ItemObj) : bool :=
  bool_decide (data item ≠ orig_data item).

(** [item.save()] with the default [overwrite=False]: a conditional
    put of all current attributes. *)
Definition save (item : ItemObj) (db : DB) : py bool * ItemObj * DB :=
  if needs_save item then
    match put_item db (data item) (build_expects item) with
    | Ret db' => (Ret true, loaded (data item), db')
    | Raise e => (Raise e, item, db)
    end
  else (Ret false, item, db).

(** A result set yields its items and then raises: [StopIteration] at
    a regular end, or the fault the store answered with. *)
Record ResultSet : Type :=
  mkResultSet { pending : list ItemObj; final : exn }.

Definition next (rs : ResultSet) : py ItemObj * ResultSet :=
  match pending rs with
  | x :: l => (Ret x, mkResultSet l (final rs))
  | [] => (Raise (final rs), rs)
  end.

(** [list(rs)] *)
Definition to_list (rs : ResultSet) : py (list ItemObj) :=
  match final rs with
  | StopIteration => Ret (pending rs)
  | e => Raise e
  end.

Definition StatusDate (rec : Item) : string := default "" (rec !! "StatusDate").

(** The range key order of the two indexes, most recent first. *)
Definition newer_eq (r1 r2 : Item) : Prop :=
  String.leb (StatusDate r2) (StatusDate r1) = true.

#[global] Instance newer_eq_dec r1 r2 : Decision (newer_eq r1 r2).
Proof. unfold newer_eq. apply _. Defined.

Definition matches (hash_attr user prefix : string) (rec : Item) : bool :=
  bool_decide (rec !! hash_attr = Some user)
  && match rec !! "StatusDate" with
     | Some s => String.prefix prefix s
     | None => false
     end.

(** [Table.query(<hash_attr>__eq=user, StatusDate__beginswith=prefix,
    index=..., limit=n)]: the records of the index whose hash key is
    [user] and whose range key starts with [prefix], in descending
    range key order, at most [n] of them.  A missing table and an
    empty key value are reported when the result set is first read. *)
Definition query (db : DB) (hash_attr user prefix : string) (limit : nat)
  : ResultSet :=
  if bool_decide (user = "") then mkResultSet [] ValidationException
  else
    match db with
    | None => mkResultSet [] (JSONResponseError ResourceNotFound)
    | Some tbl =>
      mkResultSet
        (loaded <$>
         take limit
           (merge_sort newer_eq
              (filter (λ r, matches hash_attr user prefix r = true)
                      (snd <$> map_to_list tbl))))
        StopIteration
    end.

End Boto.

(** ** dynamodb/gameController.py *)

Module GameController.
Import Dynamo Boto.

Definition createNewGame (gameId creator invitee now : string) (db : DB)
  : py bool * DB :=
  let statusDate := "PENDING_" ++ now in
  let item := new_item
    (<["OpponentId" := invitee]>
    (<["Turn" := invitee]>
    (<["OUser" := creator]>
    (<["StatusDate" := statusDate]>
    (<["HostId" := creator]>
    (<["GameId" := gameId]> ∅)))))) in
  let '(r, _, db') := save item db in (r, db').

(** Every fault of [get_item] is an [ItemNotFound] or a response error
    of the store, and both are caught. *)
Definition getGame (gameId : string) (db : DB) : option ItemObj :=
  match get_item db gameId with
  | Ret rec => Some (loaded rec)
  | Raise _ => None
  end.

Definition acceptGameInvite (game : ItemObj) (now : string) (db : DB)
  : py bool * DB :=
  let statusDate := "IN_PROGRESS_" ++ now in
  let key := getitem game "GameId" in
  let attributeUpdates : gmap string (option string) :=
    {[ "StatusDate" := Some statusDate ]} in
  let expectations : gmap string Expected :=
    {[ "StatusDate" := BEGINS_WITH "PENDING_" ]} in
  match update_item db key attributeUpdates expectations with
  | Ret db' => (Ret true, db')
  | Raise ConditionalCheckFailedException => (Ret false, db)
  | Raise e => (Raise e, db)
  end.

Definition rejectGameInvite (game : ItemObj) (db : DB) : py bool * DB :=
  let key := getitem game "GameId" in
  let expectation : gmap string Expected :=
    {[ "StatusDate" := BEGINS_WITH "PENDING_" ]} in
  match delete_item db key expectation with
  | Ret db' => (Ret true, db')
  | Raise _ => (Ret false, db)
  end.

(** The body of [for _ in range(10)], [n] iterations left. *)
Fixpoint getGameInvites_loop (n : nat) (index : ResultSet)
    (invites : list ItemObj) : py (option (list ItemObj)) :=
  match n with
  | 0 => Ret (Some invites)
  | S n' =>
    match next index with
    | (Ret x, index') => getGameInvites_loop n' index' (invites ++ [x])%list
    | (Raise StopIteration, _) | (Raise ValidationException, _) =>
        Ret (Some invites)
    | (Raise (JSONResponseError type), _) =>
        if bool_decide (type = ResourceNotFound) then Ret None
        else Raise (JSONResponseError type)
    | (Raise e, _) => Raise e
    end
  end.

Definition getGameInvites (user : option string) (db : DB)
  : py (option (list ItemObj)) :=
  match user with
  | None => Ret (Some [])
  | Some user =>
    let index := query db "OpponentId" user "PENDING_" 10 in
    getGameInvites_loop 10 index []
  end.

(** The marker and the next turn holder [updateBoardAndTurn] computes
    from the item it is given. *)
Definition representation (item : ItemObj) (current_player : string)
  : string :=
  if bool_decide (getitem item "OUser" = Some current_player)
  then "O" else "X".

Definition next_player (item : ItemObj) (current_player : string)
  : option string :=
  let player_one := getitem item "HostId" in
  let player_two := getitem item "OpponentId" in
  if bool_decide (Some current_player = player_one)
  then player_two else player_one.

Definition updateBoardAndTurn (item : ItemObj)
    (position current_player : string) (db : DB) : py bool * DB :=
  let gameId := getitem item "GameId" in
  let key := gameId in
  let attributeUpdates : gmap string (option string) :=
    <["Turn" := next_player item current_player]>
    (<[position := Some (representation item current_player)]> ∅) in
  let expectations : gmap string Expected :=
    <[position := Exists_False]>
    (<["Turn" := Value current_player]>
    (<["StatusDate" := BEGINS_WITH "IN_PROGRESS_"]> ∅)) in
  match update_item db key attributeUpdates expectations with
  | Ret db' => (Ret true, db')
  | Raise ConditionalCheckFailedException => (Ret false, db)
  | Raise e => (Raise e, db)
  end.

Definition squares : list string :=
  [ "TopLeft"; "TopMiddle"; "TopRight";
    "MiddleLeft"; "MiddleMiddle"; "MiddleRight";
    "BottomLeft"; "BottomMiddle"; "BottomRight" ].

Definition getBoardState (item : ItemObj) : list string :=
  (λ s, default " " (getitem item s)) <$> squares.

Definition winConditions : list (nat * nat * nat) :=
  [ (0,3,6); (0,1,2); (0,4,8);
    (1,4,7); (2,5,8); (2,4,6);
    (3,4,5); (6,7,8) ].

(** [board[i]] *)
Definition index (board : list string) (i : nat) : py string :=
  match board !! i with
  | Some x => Ret x
  | None => Raise IndexError
  end.

(** [board[w[0]] == board[w[1]] == board[w[2]] == marker], evaluated
    left to right and stopping at the first comparison that fails. *)
Definition line_is (board : list string) (w : nat * nat * nat)
    (marker : string) : py bool :=
  let '(i, j, k) := w in
  a ← index board i;
  b ← index board j;
  if bool_decide (a = b) then
    c ← index board k;
    Ret (bool_decide (b = c) && bool_decide (c = marker))
  else Ret false.

(** The loop over the lines; [None] when it ends without returning. *)
Fixpoint scan (board : list string) (yourMarker theirMarker : string)
    (ws : list (nat * nat * nat)) : py (option string) :=
  match ws with
  | [] => Ret None
  | w :: ws' =>
    mine ← line_is board w yourMarker;
    if mine : bool then Ret (Some "Win") else
    theirs ← line_is board w theirMarker;
    if theirs : bool then Ret (Some "Lose") else
    scan board yourMarker theirMarker ws'
  end.

Definition checkForGameResult (board : list string) (item : ItemObj)
    (current_player : string) : py (option string) :=
  let yourMarker :=
    if bool_decide (Some current_player = getitem item "OUser")
    then "O" else "X" in
  let theirMarker := if bool_decide (yourMarker = "O") then "X" else "O" in
  r ← scan board yourMarker theirMarker winConditions;
  match r with
  | Some res => Ret (Some res)
  | None =>
    if bool_decide (" " ∉ board) then Ret (Some "Tie") else Ret None
  end.

Definition changeGameToFinishedState (item : ItemObj)
    (result current_user now : string) (db : DB)
  : py bool * ItemObj * DB :=
  if bool_decide (getitem item "Result" ≠ None) then (Ret true, item, db)
  else
    let item := setitem item "StatusDate" (Some ("FINISHED_" ++ now)) in
    let item := setitem item "Turn" (Some "N/A") in
    let item :=
      if bool_decide (result = "Tie") then
        setitem item "Result" (Some "Tie")
      else if bool_decide (result = "Win") then
        setitem item "Result" (Some current_user)
      else
        setitem item "Result"
          (if bool_decide (getitem item "HostId" = Some current_user)
           then getitem item "OpponentId"
           else getitem item "HostId") in
    save item db.

Section Sorting.
(** [games.sort(reverse=True)] orders the list by the comparison of
    its elements, largest first, and keeps the order of elements
    that compare equal. *)
Context {A : Type} (cmp : A → A → py comparison).

Fixpoint insert_reverse (x : A) (l : list A) : py (list A) :=
  match l with
  | [] => Ret [x]
  | y :: l' =>
    c ← cmp y x;
    match c with
    | Gt => r ← insert_reverse x l'; Ret (y :: r)
    | _ => Ret (x :: y :: l')
    end
  end.

Fixpoint sort_reverse (l : list A) : py (list A) :=
  match l with
  | [] => Ret []
  | x :: l' => s ← sort_reverse l'; insert_reverse x s
  end.
End Sorting.

Definition getGamesWithStatus (cmp : ItemObj → ItemObj → py comparison)
    (user : option string) (status : string) (db : DB)
  : py (list ItemObj) :=
  match user with
  | None => Ret []
  | Some user =>
    let hostGames := query db "HostId" user status 10 in
    let oppGames := query db "OpponentId" user status 10 in
    h ← to_list hostGames;
    o ← to_list oppGames;
    let games := (h ++ o)%list in
    games ← sort_reverse cmp games;
    Ret (take 10 games)
  end.

End GameController.

(** ** models/game.py *)

Module Game.
Import Boto.

(** [s.split(sep)] for a one-character separator. *)
Fixpoint split (sep : ascii) (s : string) : list string :=
  match s with
  | EmptyString => [""]
  | String c s' =>
    if Ascii.eqb c sep then "" :: split sep s'
    else match split sep s' with
         | w :: ws => String c w :: ws
         | [] => [String c ""]
         end
  end.

Record Game : Type := mkGame {
  item : ItemObj;
  gameId : option string;
  hostId : option string;
  opponent : option string;
  statusDate : list string;
  o : option string;
  turn : option string
}.

(** [Game(item)] *)
Definition init (item : ItemObj) : py Game :=
  match getitem item "StatusDate" with
  | None => Raise AttributeError
  | Some sd =>
    Ret (mkGame item (getitem item "GameId") (getitem item "HostId")
           (getitem item "OpponentId") (split "_" sd)
           (getitem item "OUser") (getitem item "Turn"))
  end.

Definition getStatus (self : Game) : py string :=
  match statusDate self !! 0 with
  | None => Raise IndexError
  | Some status =>
    if bool_decide (2 < List.length (statusDate self)) then
      match statusDate self !! 1 with
      | Some s1 => Ret (status ++ "_" ++ s1)
      | None => Raise IndexError
      end
    else Ret status
  end.


(** [__cmp__]; Python 2's [cmp] on two strings is their lexicographic
    comparison, and any string is greater than None. *)
Definition __cmp__ (self : Game) (otherGame : option Game) : py comparison :=
  match otherGame with
  | None =>
    match statusDate self !! 1 with
    | Some _ => Ret Gt
    | None => Raise IndexError
    end
  | Some otherGame =>
    match statusDate self !! 1 with
    | None => Raise IndexError
    | Some a =>
      match statusDate otherGame !! 1 with
      | None => Raise IndexError
      | Some b => Ret (String.compare a b)
      end
    end
  end.

Definition getOpposingPlayer (self : Game) (current_player : string)
  : option string :=
  if bool_decide (Some current_player = hostId self)
  then opponent self else hostId self.

Definition getResult (self : Game) (current_player : string)
  : option string :=
  match getitem (item self) "Result" with
  | None => None
  | Some r =>
    if bool_decide (r = "Tie") then Some "Tie"
    else if bool_decide (r = current_player) then Some "Win"
    else Some "Lose"
  end.

(** The order [__cmp__] gives to two listed records. *)
Definition cmp_items (a b : ItemObj) : py comparison :=
  ga ← init a; gb ← init b; __cmp__ ga (Some gb).

End Game.

(** ** application.py: the handlers, as far as they drive the engine *)

Module Application.
Import Boto GameController.

(** What a handler answers: the messages it flashed and the page. *)
Record Response : Type := mkResponse { flashed : list string; page : string }.







(** POST /accept: a missing game is flashed but the handler goes on and
    fails on [game["GameId"]]. *)
Definition accept (gameId now : string) (db : DB) : py Response * DB :=
  match getGame gameId db with
  | None => (Raise TypeError, db)
  | Some game =>
    match acceptGameInvite game now db with
    | (Ret ok, db') =>
      (Ret (mkResponse (if ok then [] else ["Error validating the game..."])
                       ("/game=" ++ gameId)), db')
    | (Raise e, db') => (Raise e, db')
    end
  end.

(** POST /reject, with the same fall through on a missing game. *)
Definition reject (gameId : string) (db : DB) : py Response * DB :=
  match getGame gameId db with
  | None => (Raise TypeError, db)
  | Some game =>
    match rejectGameInvite game db with
    | (Ret ok, db') =>
      (Ret (mkResponse
              (if ok then [] else ["Something went wrong when deleting invite."])
              "/index"), db')
    | (Raise e, db') => (Raise e, db')
    end
  end.

(** POST /select *)
Definition selectSquare (gameId value username : string) (db : DB)
  : py Response * DB :=
  match getGame gameId db with
  | None => (Ret (mkResponse ["This is not a valid game."] "/index"), db)
  | Some item =>
    match updateBoardAndTurn item value username db with
    | (Ret ok, db') =>
      (Ret (mkResponse (if ok then [] else ["updateError"])
                       ("/game=" ++ gameId)), db')
    | (Raise e, db') => (Raise e, db')
    end
  end.

(** GET /game: the board is evaluated on every read and a terminal
    board finishes the game. *)
Definition game (gameId : string) (username : option string) (now : string)
    (db : DB) : py Response * DB :=
  match username with
  | None => (Ret (mkResponse ["Need to login"] "/index"), db)
  | Some username =>
    match getGame gameId db with
    | None => (Ret (mkResponse ["That game does not exist."] "/index"), db)
    | Some item =>
      let boardState := getBoardState item in
      match checkForGameResult boardState item username with
      | Raise e => (Raise e, db)
      | Ret None => (Ret (mkResponse [] "play.html"), db)
      | Ret (Some result) =>
        match changeGameToFinishedState item result username now db with
        | (Ret ok, _, db') =>
          (Ret (mkResponse
                  (if ok then []
                   else ["Some error occured while trying to finish game."])
                  "play.html"), db')
        | (Raise e, _, db') => (Raise e, db')
        end
      end
    end
  end.


(** GET /index for the session's user: the invites are listed first,
    and a missing table ends the request before the other listings.
    The listings are sorted by the order [Game.__cmp__] defines. *)
Definition index (username : option string) (db : DB) : py Response :=
  inviteGames ← getGameInvites username db;
  match inviteGames with
  | None =>
    Ret (mkResponse
           ["Table has not been created yet, please follow this link to create table."]
           "table.html")
  | Some inviteGames =>
    _ ← mapM Game.init inviteGames;
    inProgressGames ← getGamesWithStatus Game.cmp_items username "IN_PROGRESS" db;
    _ ← mapM Game.init inProgressGames;
    finishedGames ← getGamesWithStatus Game.cmp_items username "FINISHED" db;
    _ ← mapM Game.init finishedGames;
    Ret (mkResponse [] "index.html")
  end.

End Application.

(** ** dynamodb/setupDynamoDB.py *)

Module Setup.

(** A value of the [params] dictionary. *)
Inductive value : Type :=
  | VBool (b : bool)
  | VStr (s : string).

(** The parameters [getDynamoDBConnection] hands to the connection.
    [config] holds the options of the [dynamodb] section of the config
    file, if a config is given; [use_instance_metadata] is the truth
    value of the argument; [metadata_region] is the outcome of reading
    the region in the instance identity document, which is only asked
    for in the last step. *)
Definition getDynamoDBConnection_params
    (config : option (gmap string string)) (endpoint : option string)
    (use_instance_metadata : bool) (metadata_region : py string)
  : py (gmap string value) :=
  let params : gmap string value := {[ "is_secure" := VBool true ]} in
  let params :=
    match config with
    | Some options =>
      let params :=
        match options !! "region" with
        | Some region => <["region" := VStr region]> params
        | None => params
        end in
      match options !! "endpoint" with
      | Some host => <["host" := VStr host]> params
      | None => params
      end
    | None => params
    end in
  let params :=
    match endpoint with
    | Some host => delete "region" (<["host" := VStr host]> params)
    | None => params
    end in
  if bool_decide (params !! "host" = None) && use_instance_metadata then
    region ← metadata_region;
    Ret (delete "region"
           (<["host" := VStr ("dynamodb." ++ region ++ ".amazonaws.com")]>
              params))
  else Ret params.

End Setup.

(** ** Runs of engine operations *)

Module Engine.
Import Boto GameController.




Inductive Status : Type := PENDING | IN_PROGRESS | FINISHED.

#[global] Instance Status_eq_dec : EqDecision Status.
Proof. solve_decision. Defined.

(** The status prefix of a record. *)
Definition status (rec : Item) : option Status :=
  match rec !! "StatusDate" with
  | None => None
  | Some s =>
    if String.prefix "PENDING_" s then Some PENDING
    else if String.prefix "IN_PROGRESS_" s then Some IN_PROGRESS
    else if String.prefix "FINISHED_" s then Some FINISHED
    else None
  end.

End Engine.

(** * Properties *)

Import Dynamo Boto GameController Engine.

(** ** The vocabulary of the properties *)

(** The acting user's marker and the opponent's. *)
Definition marker_of (item : ItemObj) (user : string) : string :=
  if bool_decide (Some user = getitem item "OUser") then "O" else "X".

Definition other_marker (m : string) : string :=
  if bool_decide (m = "O") then "X" else "O".

(** The line [w] is fully the marker [m]. *)
Definition full (board : list string) (m : string) (w : nat * nat * nat)
  : Prop :=
  board !! w.1.1 = Some m ∧ board !! w.1.2 = Some m ∧ board !! w.2 = Some m.

Definition in_range (board : list string) (w : nat * nat * nat) : Prop :=
  w.1.1 < List.length board ∧ w.1.2 < List.length board
  ∧ w.2 < List.length board.

(** The claim as the specification words it: a line of the acting
    user's decides Win, a line of the opponent's decides Lose. *)
Definition DetectResult_as_specified (board : list string)
    (item : ItemObj) (user : string) : Prop :=
  let mine := marker_of item user in
  let theirs := other_marker mine in
  let r := checkForGameResult board item user in
  (Exists (full board mine) winConditions → r = Ret (Some "Win"))
  ∧ (Exists (full board theirs) winConditions → r = Ret (Some "Lose"))
  ∧ (Forall (λ w, ¬ full board mine w ∧ ¬ full board theirs w) winConditions
     → " " ∉ board → r = Ret (Some "Tie"))
  ∧ (Forall (λ w, ¬ full board mine w ∧ ¬ full board theirs w) winConditions
     → " " ∈ board → r = Ret None).

(** Both players hold a line: moves were played on after the first
    line was completed and before any read finalised the game. *)
Definition both_lines : list string :=
  ["O"; "O"; "O"; "X"; "X"; "X"; " "; " "; " "].

Definition game_of_alice : ItemObj :=
  loaded {[ "GameId" := "g"; "HostId" := "alice"; "OpponentId" := "bob";
            "OUser" := "alice"; "Turn" := "bob";
            "StatusDate" := "IN_PROGRESS_2024-01-01 10:00:00.000001" ]}.

(** The record found under a key has the status [st]. *)
Definition stored_status (tbl : Table) (g : string) (st : Status) : Prop :=
  ∃ rec, tbl !! g = Some rec ∧ status rec = Some st.

(** A game as [createNewGame "g" "alice" "bob"] writes it. *)
Definition pending_record : Item :=
  {[ "GameId" := "g"; "HostId" := "alice"; "OpponentId" := "bob";
     "OUser" := "alice"; "Turn" := "bob";
     "StatusDate" := "PENDING_2024-01-01 10:00:00.000001" ]}.

Definition now1 : string := "2024-01-01 10:05:00.000002".
Definition now2 : string := "2024-01-01 10:06:00.000003".

Definition move_expectations (position user : string)
  : gmap string Expected :=
  <[position := Exists_False]>
  (<["Turn" := Value user]>
  (<["StatusDate" := BEGINS_WITH "IN_PROGRESS_"]> ∅)).

(** The three preconditions of a move, on the stored record. *)
Definition move_allowed (tbl : Table) (g position user : string) : Prop :=
  ∃ rec, tbl !! g = Some rec
         ∧ status rec = Some IN_PROGRESS
         ∧ rec !! "Turn" = Some user
         ∧ rec !! position = None.

(** Alice's game with Bob, accepted; Bob (X) is to move. *)
Definition in_progress_record : Item :=
  <["StatusDate" := "IN_PROGRESS_" ++ now1]> pending_record.


(** The record [createNewGame] builds. *)
Definition new_game (gameId creator invitee now : string) : Item :=
  <["OpponentId" := invitee]>
  (<["Turn" := invitee]>
  (<["OUser" := creator]>
  (<["StatusDate" := "PENDING_" ++ now]>
  (<["HostId" := creator]>
  (<["GameId" := gameId]> ∅))))).

(** The value written as Result. *)
Definition final_result (result user h o : string) : string :=
  if bool_decide (result = "Tie") then "Tie"
  else if bool_decide (result = "Win") then user
  else if bool_decide (user = h) then o else h.

Definition finished_record (rec : Item) (res now : string) : Item :=
  <["Result" := res]>
  (<["Turn" := "N/A"]>
  (<["StatusDate" := "FINISHED_" ++ now]> rec)).

(** Bob has completed the top row of Alice's game. *)
Definition won_record : Item :=
  <["TopLeft" := "X"]> (<["TopMiddle" := "X"]> (<["TopRight" := "X"]>
  (<["MiddleMiddle" := "O"]> (<["BottomRight" := "O"]>
  (<["Turn" := "alice"]> in_progress_record))))).

(** The records of the table. *)
Definition records (tbl : Table) : list Item := (map_to_list tbl).*2.

(** The records an index query selects, most recent first. *)
Definition ranked (tbl : Table) (hash_attr user prefix : string) : list Item :=
  merge_sort newer_eq
    (filter (λ r, matches hash_attr user prefix r = true) (records tbl)).

(** What a caller of a listing observes. *)
Inductive Listing : Type :=
  | TableNotFound
  | Listed (games : list ItemObj)
  | Failed (e : exn).

Definition invites_outcome (r : py (option (list ItemObj))) : Listing :=
  match r with
  | Ret None => TableNotFound
  | Ret (Some l) => Listed l
  | Raise e => Failed e
  end.

Definition status_outcome (r : py (list ItemObj)) : Listing :=
  match r with
  | Ret l => Listed l
  | Raise e => Failed e
  end.

(** The claim as the specification words it: on a missing table both
    listings report TableNotFound. *)
Definition TableNotFound_as_specified : Prop :=
  ∀ (user : option string) (status : string),
    invites_outcome (getGameInvites user None) = TableNotFound
    ∧ status_outcome (getGamesWithStatus Game.cmp_items user status None)
      = TableNotFound.











(** ** The vocabulary of the further properties *)





(** The same outcome seen by the other player. *)
Definition flip_result (r : option string) : option string :=
  if bool_decide (r = Some "Win") then Some "Lose"
  else if bool_decide (r = Some "Lose") then Some "Win"
  else r.

(** A string without underscore, as [str(datetime.now())] is. *)
Fixpoint plain (s : string) : bool :=
  match s with
  | EmptyString => true
  | String c s' => negb (Ascii.eqb c "_") && plain s'
  end.

(** The status as the engine writes it in front of the timestamp. *)
Definition status_name (st : Status) : string :=
  match st with
  | PENDING => "PENDING"
  | IN_PROGRESS => "IN_PROGRESS"
  | FINISHED => "FINISHED"
  end.

(** What the page of a game shows to [viewer] for the game wrapped
    around [rec]. *)
Definition shown_result (rec : Item) (viewer : string)
  : py (option string) :=
  g ← Game.init (loaded rec); Ret (Game.getResult g viewer).

Definition shown_status (rec : Item) : py string :=
  g ← Game.init (loaded rec); Game.getStatus g.

(** The order of the listings on item objects. *)
Definition newer_obj (a b : ItemObj) : Prop := newer_eq (data a) (data b).







(** An option of the [dynamodb] section of the config, if there is a
    config and it has the option. *)
Definition option_of (config : option (gmap string string)) (k : string)
  : option string := config ≫= (.!! k).

(** The host made from the region of the instance metadata. *)
Definition metadata_host (region : string) : string :=
  "dynamodb." ++ region ++ ".amazonaws.com".

(** The parameters after the config file has been read. *)
Definition config_params (config : option (gmap string string))
  : gmap string Setup.value :=
  match config with
  | Some options =>
    let params :=
      match options !! "region" with
      | Some region => <["region" := Setup.VStr region]> {[ "is_secure" := Setup.VBool true ]}
      | None => {[ "is_secure" := Setup.VBool true ]}
      end in
    match options !! "endpoint" with
    | Some host => <["host" := Setup.VStr host]> params
    | None => params
    end
  | None => {[ "is_secure" := Setup.VBool true ]}
  end.

(** The parameters the config alone gives, key by key. *)
Definition params_of (config : option (gmap string string)) (k : string)
  : option Setup.value :=
  if bool_decide (k = "is_secure") then Some (Setup.VBool true)
  else if bool_decide (k = "host") then Setup.VStr <$> option_of config "endpoint"
  else if bool_decide (k = "region") then Setup.VStr <$> option_of config "region"
  else None.

(** * Proofs *)

(** ** Result detection *)

Section DetectResult.

#[global] Instance full_dec board m w : Decision (full board m w).
Proof. unfold full. apply _. Defined.

Lemma index_lookup (board : list string) i :
  i < List.length board → ∃ x, board !! i = Some x ∧ index board i = Ret x.
Proof.
  intros Hi. destruct (lookup_lt_is_Some_2 board i Hi) as [x Hx].
  exists x. unfold index. by rewrite Hx.
Qed.

Lemma line_is_full board w m :
  in_range board w → line_is board w m = Ret (bool_decide (full board m w)).
Proof.
  destruct w as [[i j] k]. intros (Hi & Hj & Hk). simpl in *.
  destruct (index_lookup board i Hi) as (a & Ha & Ia).
  destruct (index_lookup board j Hj) as (b & Hb & Ib).
  destruct (index_lookup board k Hk) as (c & Hc & Ic).
  unfold line_is. rewrite Ia, Ib. simpl.
  destruct (decide (full board m (i, j, k))) as [Hf|Hf].
  - rewrite (bool_decide_eq_true_2 _ Hf).
    destruct Hf as (F1 & F2 & F3). simpl in *.
    assert (a = m) by congruence. assert (b = m) by congruence.
    assert (c = m) by congruence. subst a b c.
    rewrite bool_decide_eq_true_2 by done. rewrite Ic. simpl.
    by rewrite !bool_decide_eq_true_2 by done.
  - rewrite (bool_decide_eq_false_2 _ Hf).
    case_bool_decide as Hab; [|done]. rewrite Ic. simpl. f_equal.
    apply andb_false_iff.
    destruct (decide (b = c)) as [Hbc|Hbc];
      [|left; by apply bool_decide_eq_false_2].
    right. apply bool_decide_eq_false_2. intros Hcm.
    apply Hf. unfold full. simpl. subst. done.
Qed.

Lemma scan_none board mine theirs ws :
  Forall (in_range board) ws →
  Forall (λ w, ¬ full board mine w ∧ ¬ full board theirs w) ws →
  scan board mine theirs ws = Ret None.
Proof.
  induction ws as [|w ws IH]; intros Hr Hn; [done|].
  apply Forall_cons in Hr as [Hw Hr]. apply Forall_cons in Hn as [[H1 H2] Hn].
  simpl. rewrite !line_is_full by done. simpl.
  rewrite (bool_decide_eq_false_2 _ H1). simpl.
  rewrite ?line_is_full by done. simpl.
  rewrite (bool_decide_eq_false_2 _ H2). simpl. by apply IH.
Qed.

Lemma scan_first board mine theirs pre w post :
  Forall (in_range board) (pre ++ w :: post) →
  Forall (λ w, ¬ full board mine w ∧ ¬ full board theirs w) pre →
  (full board mine w →
     scan board mine theirs (pre ++ w :: post) = Ret (Some "Win"))
  ∧ (¬ full board mine w → full board theirs w →
     scan board mine theirs (pre ++ w :: post) = Ret (Some "Lose")).
Proof.
  induction pre as [|p pre IH]; intros Hr Hn.
  - simpl in *. apply Forall_cons in Hr as [Hw Hr].
    rewrite !line_is_full by done. split.
    + intros H. simpl. by rewrite (bool_decide_eq_true_2 _ H).
    + intros H1 H2. simpl. rewrite (bool_decide_eq_false_2 _ H1). simpl.
      rewrite ?line_is_full by done. simpl.
      by rewrite (bool_decide_eq_true_2 _ H2).
  - simpl in Hr. apply Forall_cons in Hr as [Hw Hr].
    apply Forall_cons in Hn as [[H1 H2] Hn].
    destruct (IH Hr Hn) as [IHa IHb].
    simpl. rewrite !line_is_full by done. simpl.
    rewrite (bool_decide_eq_false_2 _ H1). simpl.
    rewrite ?line_is_full by done. simpl.
    rewrite (bool_decide_eq_false_2 _ H2). simpl. done.
Qed.

Lemma winConditions_in_range board :
  List.length board = 9 → Forall (in_range board) winConditions.
Proof.
  intros H. unfold winConditions, in_range. rewrite H.
  repeat constructor; simpl; lia.
Qed.

Lemma markers_differ item user :
  marker_of item user ≠ other_marker (marker_of item user).
Proof. unfold marker_of, other_marker. repeat case_bool_decide; done. Qed.

Lemma full_exclusive board m m' w :
  m ≠ m' → full board m w → ¬ full board m' w.
Proof. intros Hne [H1 _] [H2 _]. congruence. Qed.

Lemma first_such {A} (P : A → Prop) `{!∀ x, Decision (P x)} (l : list A) :
  Exists P l →
  ∃ pre w post, l = (pre ++ w :: post)%list ∧ P w ∧ Forall (λ x, ¬ P x) pre.
Proof.
  induction l as [|x l IH]; intros HE; [by apply Exists_nil in HE|].
  destruct (decide (P x)) as [Hx|Hx].
  - exists [], x, l. auto.
  - apply Exists_cons in HE as [?|HE]; [done|].
    destruct (IH HE) as (pre & w & post & -> & Hw & Hpre).
    exists (x :: pre), w, post. auto.
Qed.

End DetectResult.

(** C2 (as stated, refuted).  On the board O O O / X X X / _ _ _ the
    X player holds the middle row, and still the result from the X
    player's view is Lose: the top row is met first in the scan. *)
Lemma checkForGameResult_both_lines :
  ¬ DetectResult_as_specified both_lines game_of_alice "bob".
Proof.
  intros (HWin & _).
  assert (Exists (full both_lines (marker_of game_of_alice "bob"))
                 winConditions) as HE.
  { apply Exists_exists. exists (3, 4, 5). split; [|by vm_compute].
    unfold winConditions. set_solver. }
  specialize (HWin HE). vm_compute in HWin. discriminate HWin.
Qed.

(** C2 (amended).  On every 9-element board [checkForGameResult] returns
    exactly one outcome, decided by the first line in the scan order
    (0,3,6) (0,1,2) (0,4,8) (1,4,7) (2,5,8) (2,4,6) (3,4,5) (6,7,8) that
    is complete: Win if that line is the acting user's marker, Lose if
    it is the opponent's.  In particular the result is Win when some
    line is the acting user's and none the opponent's, and Lose when
    some line is the opponent's and none the acting user's.  With no
    complete line the result is Tie when no cell is blank and None
    otherwise. *)
Theorem checkForGameResult_spec (board : list string) (item : ItemObj)
    (user : string) :
  List.length board = 9 →
  let mine := marker_of item user in
  let theirs := other_marker mine in
  let r := checkForGameResult board item user in
  (∀ pre w post,
      winConditions = (pre ++ w :: post)%list →
      Forall (λ w, ¬ full board mine w ∧ ¬ full board theirs w) pre →
      (full board mine w → r = Ret (Some "Win"))
      ∧ (full board theirs w → r = Ret (Some "Lose")))
  ∧ (Exists (full board mine) winConditions →
     Forall (λ w, ¬ full board theirs w) winConditions →
     r = Ret (Some "Win"))
  ∧ (Exists (full board theirs) winConditions →
     Forall (λ w, ¬ full board mine w) winConditions →
     r = Ret (Some "Lose"))
  ∧ (Forall (λ w, ¬ full board mine w ∧ ¬ full board theirs w) winConditions
     → " " ∉ board → r = Ret (Some "Tie"))
  ∧ (Forall (λ w, ¬ full board mine w ∧ ¬ full board theirs w) winConditions
     → " " ∈ board → r = Ret None).
Proof.
  intros Hlen mine theirs r.
  pose proof (winConditions_in_range board Hlen) as Hrange.
  assert (mine ≠ theirs) as Hne by apply markers_differ.
  assert (∀ pre w post,
      winConditions = (pre ++ w :: post)%list →
      Forall (λ w, ¬ full board mine w ∧ ¬ full board theirs w) pre →
      (full board mine w → r = Ret (Some "Win"))
      ∧ (full board theirs w → r = Ret (Some "Lose"))) as Hfirst.
  { intros pre w post Hwc Hpre.
    assert (Forall (in_range board) (pre ++ w :: post)) as Hr
      by (by rewrite <- Hwc).
    destruct (scan_first board mine theirs pre w post Hr Hpre) as [Ha Hb].
    subst r. unfold checkForGameResult. fold (marker_of item user).
    fold mine. fold (other_marker mine). fold theirs.
    rewrite Hwc. split.
    - intros Hf. by rewrite (Ha Hf).
    - intros Hf. rewrite Hb; [done| |done].
      intros Hm. by apply (full_exclusive board mine theirs w Hne Hm). }
  split; [exact Hfirst|].
  assert (Forall (λ w, ¬ full board mine w ∧ ¬ full board theirs w)
                 winConditions →
          r = (if bool_decide (" " ∉ board)
               then Ret (Some "Tie") else Ret None)) as Hnone.
  { intros Hn. subst r. unfold checkForGameResult.
    fold (marker_of item user). fold mine. fold (other_marker mine).
    fold theirs. by rewrite (scan_none board mine theirs _ Hrange Hn). }
  repeat split.
  - intros HE HF.
    destruct (first_such _ _ HE) as (pre & w & post & Hwc & Hw & Hpre).
    apply (Hfirst pre w post Hwc); [|done].
    rewrite Hwc in HF. apply Forall_app in HF as [HF _].
    apply Forall_forall. intros x Hx. split.
    + by apply (proj1 (Forall_forall _ _) Hpre).
    + by apply (proj1 (Forall_forall _ _) HF).
  - intros HE HF.
    destruct (first_such _ _ HE) as (pre & w & post & Hwc & Hw & Hpre).
    apply (Hfirst pre w post Hwc); [|done].
    rewrite Hwc in HF. apply Forall_app in HF as [HF _].
    apply Forall_forall. intros x Hx. split.
    + by apply (proj1 (Forall_forall _ _) HF).
    + by apply (proj1 (Forall_forall _ _) Hpre).
  - intros Hn Hb. rewrite (Hnone Hn). by rewrite bool_decide_eq_true_2.
  - intros Hn Hb. rewrite (Hnone Hn). rewrite bool_decide_eq_false_2; [done|].
    by intros ?.
Qed.

(** The X player completes the top row: Win for the X player's view. *)
Lemma checkForGameResult_spec_witness :
  checkForGameResult ["X"; "X"; "X"; " "; "O"; " "; " "; " "; "O"]
    game_of_alice "bob" = Ret (Some "Win").
Proof.
  apply (checkForGameResult_spec
           ["X"; "X"; "X"; " "; "O"; " "; " "; " "; "O"]
           game_of_alice "bob" eq_refl).
  - apply Exists_exists. exists (0, 1, 2). split; [|by vm_compute].
    unfold winConditions. set_solver.
  - apply (bool_decide_unpack _). vm_compute. exact I.
Defined.

(** ** Conditional writes *)

Section ConditionalWrites.

Lemma check_iff (expected : gmap string Expected) (rec : Item) :
  check expected rec = true
  ↔ ∀ k e, expected !! k = Some e → holds e (rec !! k) = true.
Proof.
  unfold check. rewrite bool_decide_eq_true. apply map_Forall_lookup.
Qed.

Lemma check_singleton k e (rec : Item) :
  check {[ k := e ]} rec = holds e (rec !! k).
Proof.
  destruct (holds e (rec !! k)) eqn:H.
  - apply check_iff. intros k' e' Hk.
    apply lookup_singleton_Some in Hk as [<- <-]. done.
  - apply not_true_is_false. intros Hc.
    rewrite check_iff in Hc.
    rewrite (Hc k e) in H; [done|]. apply lookup_singleton_eq.
Qed.

Lemma valid_key_Some g : g ≠ "" → valid_key (Some g) = Some g.
Proof. intros H. unfold valid_key. by rewrite bool_decide_eq_false_2. Qed.

Lemma prefix_cons a s1 b s2 :
  String.prefix (String a s1) (String b s2)
  = if ascii_dec a b then String.prefix s1 s2 else false.
Proof. reflexivity. Qed.

Lemma prefix_app p s : String.prefix p (p ++ s) = true.
Proof.
  induction p as [|a p IH]; [by destruct s|].
  change (String a p ++ s) with (String a (p ++ s)).
  rewrite prefix_cons. by destruct (ascii_dec a a).
Qed.

Lemma prefix_pending s :
  String.prefix "PENDING_" s = true →
  String.prefix "IN_PROGRESS_" s = false
  ∧ String.prefix "FINISHED_" s = false.
Proof.
  destruct s as [|c s]; [done|]. rewrite !prefix_cons.
  destruct (ascii_dec "P" c) as [<-|]; [|done].
  intros _. split; reflexivity.
Qed.

Lemma prefix_in_progress s :
  String.prefix "IN_PROGRESS_" s = true →
  String.prefix "PENDING_" s = false
  ∧ String.prefix "FINISHED_" s = false.
Proof.
  destruct s as [|c s]; [done|]. rewrite !prefix_cons.
  destruct (ascii_dec "I" c) as [<-|]; [|done].
  intros _. split; reflexivity.
Qed.

Lemma prefix_finished s :
  String.prefix "FINISHED_" s = true →
  String.prefix "PENDING_" s = false
  ∧ String.prefix "IN_PROGRESS_" s = false.
Proof.
  destruct s as [|c s]; [done|]. rewrite !prefix_cons.
  destruct (ascii_dec "F" c) as [<-|]; [|done].
  intros _. split; reflexivity.
Qed.

Lemma status_pending (rec : Item) :
  status rec = Some PENDING
  ↔ holds (BEGINS_WITH "PENDING_") (rec !! "StatusDate") = true.
Proof.
  unfold status, holds. destruct (rec !! "StatusDate") as [s|]; [|done].
  destruct (String.prefix "PENDING_" s) eqn:HP; [done|].
  repeat case_match; done.
Qed.

Lemma status_in_progress (rec : Item) :
  status rec = Some IN_PROGRESS
  ↔ holds (BEGINS_WITH "IN_PROGRESS_") (rec !! "StatusDate") = true.
Proof.
  unfold status, holds. destruct (rec !! "StatusDate") as [s|]; [|done].
  destruct (String.prefix "IN_PROGRESS_" s) eqn:HP.
  - destruct (prefix_in_progress s HP) as [-> _]. done.
  - repeat case_match; done.
Qed.

Lemma status_finished (rec : Item) :
  status rec = Some FINISHED
  ↔ ∃ s, rec !! "StatusDate" = Some s ∧ String.prefix "FINISHED_" s = true.
Proof.
  unfold status.
  destruct (rec !! "StatusDate") as [s|];
    [|split; [done|by intros (? & ? & _)]].
  split.
  - intros Hst. exists s. split; [done|].
    destruct (String.prefix "PENDING_" s); [done|].
    destruct (String.prefix "IN_PROGRESS_" s); [done|].
    by destruct (String.prefix "FINISHED_" s).
  - intros (s' & [= <-] & HP).
    destruct (prefix_finished s HP) as [-> ->]. by rewrite HP.
Qed.

Lemma status_insert_in_progress (rec : Item) now :
  status (<["StatusDate" := "IN_PROGRESS_" ++ now]> rec) = Some IN_PROGRESS.
Proof.
  apply status_in_progress. rewrite lookup_insert_eq. apply prefix_app.
Qed.

Lemma status_insert_finished (rec : Item) now :
  status (<["StatusDate" := "FINISHED_" ++ now]> rec) = Some FINISHED.
Proof.
  apply status_finished. eexists. rewrite lookup_insert_eq.
  split; [done|]. apply prefix_app.
Qed.

Lemma status_insert_pending (rec : Item) now :
  status (<["StatusDate" := "PENDING_" ++ now]> rec) = Some PENDING.
Proof.
  apply status_pending. rewrite lookup_insert_eq. apply prefix_app.
Qed.

Lemma current_Some (tbl : Table) g rec :
  tbl !! g = Some rec → current tbl g = rec.
Proof. intros H. unfold current. by rewrite H. Qed.

Lemma current_None (tbl : Table) g : tbl !! g = None → current tbl g = ∅.
Proof. intros H. unfold current. by rewrite H. Qed.

Lemma current_pending (tbl : Table) g :
  holds (BEGINS_WITH "PENDING_") (current tbl g !! "StatusDate") = true
  ↔ stored_status tbl g PENDING.
Proof.
  unfold stored_status. destruct (tbl !! g) as [rec|] eqn:Hrec.
  - rewrite (current_Some _ _ _ Hrec). split.
    + intros H. apply status_pending in H. eauto.
    + intros (r & [= <-] & H). by apply status_pending.
  - rewrite (current_None _ _ Hrec), lookup_empty.
    split; [done|]. by intros (r & ? & _).
Qed.

Lemma update_item_eq (tbl : Table) g
    (updates : gmap string (option string)) expected :
  g ≠ "" → map_Forall (λ _ v, is_Some v) updates →
  update_item (Some tbl) (Some g) updates expected =
    if check expected (current tbl g)
    then Ret (Some (<[g := omap id updates ∪
                             default {["GameId" := g]} (tbl !! g)]> tbl))
    else Raise ConditionalCheckFailedException.
Proof.
  intros Hne Hall. unfold update_item.
  by rewrite (valid_key_Some g Hne), bool_decide_eq_true_2.
Qed.

Lemma holds_pending_current (tbl : Table) g :
  holds (BEGINS_WITH "PENDING_") (current tbl g !! "StatusDate") =
    match tbl !! g with
    | Some rec => bool_decide (status rec = Some PENDING)
    | None => false
    end.
Proof.
  destruct (tbl !! g) as [rec|] eqn:Hrec.
  - rewrite (current_Some _ _ _ Hrec). destruct (holds _ _) eqn:Hh.
    + apply status_pending in Hh. by rewrite bool_decide_eq_true_2.
    + rewrite bool_decide_eq_false_2; [done|].
      intros Hst. apply status_pending in Hst. congruence.
  - by rewrite (current_None _ _ Hrec), lookup_empty.
Qed.

Lemma acceptGameInvite_eq (game : ItemObj) (tbl : Table) g now :
  getitem game "GameId" = Some g → g ≠ "" →
  acceptGameInvite game now (Some tbl) =
    match tbl !! g with
    | Some rec =>
      if bool_decide (status rec = Some PENDING)
      then (Ret true,
            Some (<[g := <["StatusDate" := "IN_PROGRESS_" ++ now]> rec]> tbl))
      else (Ret false, Some tbl)
    | None => (Ret false, Some tbl)
    end.
Proof.
  intros Hg Hne. unfold acceptGameInvite.
  rewrite Hg, update_item_eq;
    [|done|apply map_Forall_singleton; by eexists].
  rewrite check_singleton, holds_pending_current.
  destruct (tbl !! g) as [rec|] eqn:Hrec; [|done].
  case_bool_decide; [|done]. simpl.
  rewrite omap_singleton_Some with (y := "IN_PROGRESS_" ++ now) by done.
  by rewrite <- insert_union_singleton_l.
Qed.

Lemma rejectGameInvite_eq (game : ItemObj) (tbl : Table) g :
  getitem game "GameId" = Some g → g ≠ "" →
  rejectGameInvite game (Some tbl) =
    match tbl !! g with
    | Some rec =>
      if bool_decide (status rec = Some PENDING)
      then (Ret true, Some (delete g tbl))
      else (Ret false, Some tbl)
    | None => (Ret false, Some tbl)
    end.
Proof.
  intros Hg Hne. unfold rejectGameInvite, delete_item.
  rewrite Hg, (valid_key_Some g Hne), check_singleton.
  rewrite holds_pending_current.
  destruct (tbl !! g) as [rec|] eqn:Hrec; [|done].
  by case_bool_decide.
Qed.

End ConditionalWrites.

(** C4.  [acceptGameInvite] rewrites StatusDate to IN_PROGRESS_<now>
    exactly when the stored record's status prefix is PENDING, and
    [rejectGameInvite] deletes the record under the same condition; in
    every other case (another status, no record) the call returns False
    and the table is unchanged.  After an accept that succeeded, a second
    accept and a reject both return False and change nothing. *)
Theorem invite_conditional_spec (game : ItemObj) (tbl : Table)
    (g now : string) :
  getitem game "GameId" = Some g → g ≠ "" →
  (∀ rec, tbl !! g = Some rec → status rec = Some PENDING →
     acceptGameInvite game now (Some tbl) =
       (Ret true,
        Some (<[g := <["StatusDate" := "IN_PROGRESS_" ++ now]> rec]> tbl))
     ∧ rejectGameInvite game (Some tbl) = (Ret true, Some (delete g tbl)))
  ∧ (¬ stored_status tbl g PENDING →
     acceptGameInvite game now (Some tbl) = (Ret false, Some tbl)
     ∧ rejectGameInvite game (Some tbl) = (Ret false, Some tbl))
  ∧ (∀ db', acceptGameInvite game now (Some tbl) = (Ret true, db') →
     ∀ now', acceptGameInvite game now' db' = (Ret false, db')
             ∧ rejectGameInvite game db' = (Ret false, db')).
Proof.
  intros Hg Hne.
  assert (∀ tbl' : Table, ¬ stored_status tbl' g PENDING →
     ∀ now', acceptGameInvite game now' (Some tbl') = (Ret false, Some tbl')
     ∧ rejectGameInvite game (Some tbl') = (Ret false, Some tbl')) as Hstale.
  { intros tbl' Hno now'.
    rewrite (acceptGameInvite_eq game tbl' g now' Hg Hne).
    rewrite (rejectGameInvite_eq game tbl' g Hg Hne).
    destruct (tbl' !! g) as [rec|] eqn:Hrec; [|done].
    rewrite bool_decide_eq_false_2; [done|].
    intros Hst. apply Hno. by exists rec. }
  split; [|split].
  - intros rec Hrec Hst.
    rewrite (acceptGameInvite_eq game tbl g now Hg Hne).
    rewrite (rejectGameInvite_eq game tbl g Hg Hne).
    by rewrite Hrec, bool_decide_eq_true_2.
  - intros Hno. apply Hstale, Hno.
  - intros db' Hacc now'.
    rewrite (acceptGameInvite_eq game tbl g now Hg Hne) in Hacc.
    destruct (tbl !! g) as [rec|] eqn:Hrec; [|done].
    case_bool_decide; [|done]. injection Hacc as <-.
    apply Hstale. intros (rec' & Hrec' & Hst').
    rewrite lookup_insert_eq in Hrec'. injection Hrec' as <-.
    by rewrite status_insert_in_progress in Hst'.
Qed.

(** Bob accepts the invite of [pending_record]; rejecting it afterwards
    is refused. *)
Lemma invite_conditional_witness :
  let db' := Some {[ "g" :=
      <["StatusDate" := "IN_PROGRESS_" ++ now1]> pending_record ]} in
  rejectGameInvite (loaded pending_record) db' = (Ret false, db').
Proof.
  pose proof (invite_conditional_spec (loaded pending_record)
                {[ "g" := pending_record ]} "g" now1 eq_refl
                ltac:(discriminate)) as (_ & _ & H).
  intros db'. apply (H db' ltac:(vm_compute; reflexivity) now2).
Defined.

(** ** Moves *)

Section Moves.

Lemma squares_not_control position :
  position ∈ squares → position ≠ "Turn" ∧ position ≠ "StatusDate".
Proof.
  unfold squares. intros H.
  repeat (apply elem_of_cons in H as [->|H]; [done|]).
  by apply elem_of_nil in H.
Qed.

Lemma next_player_eq (item : ItemObj) h o user :
  getitem item "HostId" = Some h → getitem item "OpponentId" = Some o →
  next_player item user = Some (if bool_decide (user = h) then o else h).
Proof.
  intros Hh Ho. unfold next_player. rewrite Hh, Ho.
  repeat case_bool_decide; congruence.
Qed.

Lemma updateBoardAndTurn_eq (item : ItemObj) (tbl : Table)
    g h o position user :
  getitem item "GameId" = Some g → g ≠ "" →
  getitem item "HostId" = Some h → getitem item "OpponentId" = Some o →
  updateBoardAndTurn item position user (Some tbl) =
    if check (move_expectations position user) (current tbl g)
    then (Ret true,
          Some (<[g := <["Turn" := if bool_decide (user = h) then o else h]>
                       (<[position := representation item user]>
                          (default {["GameId" := g]} (tbl !! g)))]> tbl))
    else (Ret false, Some tbl).
Proof.
  intros Hg Hne Hh Ho. unfold updateBoardAndTurn.
  rewrite Hg, (next_player_eq item h o user Hh Ho).
  fold (move_expectations position user).
  rewrite update_item_eq; [|done|].
  - destruct (check _ _); [|done].
    do 3 f_equal. erewrite !omap_insert_Some by done.
    rewrite omap_empty, <- !insert_union_l. by rewrite (left_id ∅ _).
  - intros k v Hk.
    apply lookup_insert_Some in Hk as [[_ <-]|[_ Hk]]; [by eexists|].
    apply lookup_insert_Some in Hk as [[_ <-]|[_ Hk]]; [by eexists|].
    by rewrite lookup_empty in Hk.
Qed.

Lemma move_check_cell (rec : Item) position user :
  position ≠ "Turn" → position ≠ "StatusDate" →
  check (move_expectations position user) rec = true
  ↔ status rec = Some IN_PROGRESS
    ∧ rec !! "Turn" = Some user ∧ rec !! position = None.
Proof.
  intros HT HS. unfold check, move_expectations.
  rewrite bool_decide_eq_true.
  rewrite map_Forall_insert
    by (rewrite !lookup_insert_ne by done; apply lookup_empty).
  rewrite map_Forall_insert
    by (rewrite !lookup_insert_ne by done; apply lookup_empty).
  rewrite map_Forall_insert by apply lookup_empty.
  rewrite status_in_progress. unfold holds at 1 2.
  destruct (rec !! position), (rec !! "Turn") as [t|];
    rewrite ?bool_decide_eq_true; split;
    try (intros (? & ? & ? & ?)); try (intros (? & ? & ?));
    try done; try congruence.
  - by subst.
  - repeat split; [congruence|done|apply map_Forall_empty].
Qed.

(** Whatever the position, the expectations of a move fail on a record
    whose turn is held by someone else. *)
Lemma move_check_turn (rec : Item) position user t :
  rec !! "Turn" = Some t → t ≠ user →
  check (move_expectations position user) rec = false.
Proof.
  intros Ht Hne. apply not_true_is_false. intros Hc.
  rewrite check_iff in Hc. unfold move_expectations in Hc.
  destruct (decide (position = "Turn")) as [->|Hp].
  - specialize (Hc "Turn" Exists_False (lookup_insert_eq _ _ _)).
    by rewrite Ht in Hc.
  - specialize (Hc "Turn" (Value user)).
    rewrite lookup_insert_ne, lookup_insert_eq in Hc by done.
    specialize (Hc eq_refl). rewrite Ht in Hc. simpl in Hc.
    by apply bool_decide_eq_true in Hc.
Qed.

End Moves.

(** C1.  For a board cell [position], [updateBoardAndTurn] succeeds if
    and only if the stored record has status prefix IN_PROGRESS, its Turn
    is the acting user and the cell is unset.  On success the record
    gains exactly the acting user's marker ("O" if the user is OUser,
    else "X") in the cell and Turn becomes the other participant; in
    every other case the call returns False and the table is unchanged. *)
Theorem updateBoardAndTurn_spec (item : ItemObj) (tbl : Table)
    (g h o position user : string) :
  getitem item "GameId" = Some g → g ≠ "" →
  getitem item "HostId" = Some h → getitem item "OpponentId" = Some o →
  position ∈ squares →
  (∀ rec, tbl !! g = Some rec → status rec = Some IN_PROGRESS →
     rec !! "Turn" = Some user → rec !! position = None →
     updateBoardAndTurn item position user (Some tbl) =
       (Ret true,
        Some (<[g := <["Turn" := if bool_decide (user = h) then o else h]>
                     (<[position :=
                          if bool_decide (getitem item "OUser" = Some user)
                          then "O" else "X"]> rec)]> tbl)))
  ∧ (¬ move_allowed tbl g position user →
     updateBoardAndTurn item position user (Some tbl) = (Ret false, Some tbl)).
Proof.
  intros Hg Hne Hh Ho Hpos.
  destruct (squares_not_control position Hpos) as [HT HS].
  rewrite (updateBoardAndTurn_eq item tbl g h o position user Hg Hne Hh Ho).
  split.
  - intros rec Hrec Hst Hturn Hcell.
    rewrite (current_Some _ _ _ Hrec), Hrec.
    by rewrite (proj2 (move_check_cell rec position user HT HS)).
  - intros Hno. destruct (check _ _) eqn:Hc; [|done].
    exfalso. apply Hno. destruct (tbl !! g) as [rec|] eqn:Hrec.
    + rewrite (current_Some _ _ _ Hrec) in Hc.
      apply move_check_cell in Hc; [|done..]. by exists rec.
    + rewrite (current_None _ _ Hrec) in Hc.
      apply move_check_cell in Hc as (Hst & _); [|done..]. done.
Qed.

(** Bob plays TopLeft: the cell is marked X and the turn goes to Alice. *)
Lemma updateBoardAndTurn_spec_witness :
  updateBoardAndTurn (loaded in_progress_record) "TopLeft" "bob"
    (Some {[ "g" := in_progress_record ]}) =
  (Ret true,
   Some {[ "g" := <["Turn" := "alice"]>
                  (<["TopLeft" := "X"]> in_progress_record) ]}).
Proof.
  pose proof (updateBoardAndTurn_spec (loaded in_progress_record)
                {[ "g" := in_progress_record ]} "g" "alice" "bob"
                "TopLeft" "bob" eq_refl ltac:(discriminate) eq_refl eq_refl
                ltac:(unfold squares; set_solver)) as [H _].
  rewrite (H in_progress_record); [|by vm_compute..].
  vm_compute. reflexivity.
Defined.

(** C10.  A user who is neither participant cannot move: whatever the
    position, on a record whose Turn is the host or the opponent the
    call returns False and the table is unchanged.  For such a user the
    engine computes the marker "X" (the user is not OUser) and the host
    as next turn holder, and neither is ever written. *)
Theorem outsider_move_rejected (item : ItemObj) (tbl : Table) (rec : Item)
    (g h o position user : string) :
  getitem item "GameId" = Some g → g ≠ "" →
  getitem item "HostId" = Some h → getitem item "OpponentId" = Some o →
  tbl !! g = Some rec →
  rec !! "Turn" = Some h ∨ rec !! "Turn" = Some o →
  user ≠ h → user ≠ o →
  updateBoardAndTurn item position user (Some tbl) = (Ret false, Some tbl)
  ∧ next_player item user = Some h
  ∧ (getitem item "OUser" = Some h ∨ getitem item "OUser" = Some o →
     representation item user = "X").
Proof.
  intros Hg Hne Hh Ho Hrec Hturn Hnh Hno.
  split; [|split].
  - rewrite (updateBoardAndTurn_eq item tbl g h o position user Hg Hne Hh Ho).
    rewrite (current_Some _ _ _ Hrec).
    destruct Hturn as [Ht|Ht].
    + by rewrite (move_check_turn rec position user h Ht).
    + by rewrite (move_check_turn rec position user o Ht).
  - rewrite (next_player_eq item h o user Hh Ho).
    by rewrite bool_decide_eq_false_2.
  - intros HO. unfold representation.
    rewrite bool_decide_eq_false_2; [done|]. destruct HO; congruence.
Qed.

(** Carol is not in Alice's game with Bob: her move is refused. *)
Lemma outsider_move_rejected_witness :
  updateBoardAndTurn (loaded in_progress_record) "TopLeft" "carol"
    (Some {[ "g" := in_progress_record ]}) =
  (Ret false, Some {[ "g" := in_progress_record ]}).
Proof.
  apply (outsider_move_rejected (loaded in_progress_record)
           {[ "g" := in_progress_record ]} in_progress_record
           "g" "alice" "bob" "TopLeft" "carol"
           eq_refl ltac:(discriminate) eq_refl eq_refl eq_refl
           (or_intror eq_refl) ltac:(discriminate) ltac:(discriminate)).
Defined.

(** ** Saving an item *)

Section Saving.

Lemma build_expects_lookup (item : ItemObj) k :
  build_expects item !! k =
    match orig_data item !! k, data item !! k with
    | Some v, _ => Some (Value v)
    | None, Some _ => Some Exists_False
    | None, None => None
    end.
Proof.
  unfold build_expects. rewrite lookup_merge.
  by destruct (data item !! k), (orig_data item !! k).
Qed.

(** The expectations of [save] hold on the record the item was loaded
    from. *)
Lemma check_build_expects (item : ItemObj) :
  check (build_expects item) (orig_data item) = true.
Proof.
  apply check_iff. intros k e. rewrite build_expects_lookup.
  destruct (orig_data item !! k) as [v|] eqn:Ho.
  - intros [= <-]. simpl. by apply bool_decide_eq_true_2.
  - destruct (data item !! k); [|done]. by intros [= <-].
Qed.

Lemma save_loaded (item : ItemObj) (tbl : Table) g :
  data item ≠ orig_data item →
  data item !! "GameId" = Some g → g ≠ "" →
  tbl !! g = Some (orig_data item) →
  save item (Some tbl) =
    (Ret true, loaded (data item), Some (<[g := data item]> tbl)).
Proof.
  intros Hne Hg Hg' Hrec. unfold save, needs_save, put_item.
  rewrite bool_decide_eq_true_2 by done.
  rewrite Hg, (valid_key_Some g Hg'), (current_Some _ _ _ Hrec).
  by rewrite check_build_expects.
Qed.

Lemma new_game_lookup gameId creator invitee now k :
  new_game gameId creator invitee now !! k =
    if bool_decide (k = "OpponentId") then Some invitee
    else if bool_decide (k = "Turn") then Some invitee
    else if bool_decide (k = "OUser") then Some creator
    else if bool_decide (k = "StatusDate") then Some ("PENDING_" ++ now)
    else if bool_decide (k = "HostId") then Some creator
    else if bool_decide (k = "GameId") then Some gameId
    else None.
Proof.
  unfold new_game.
  repeat (case_bool_decide;
          [subst k; by rewrite lookup_insert_eq
          |rewrite lookup_insert_ne by done]).
  apply lookup_empty.
Qed.

Lemma createNewGame_eq gameId creator invitee now (tbl : Table) :
  createNewGame gameId creator invitee now (Some tbl) =
    if bool_decide (gameId = "") then (Raise ValidationException, Some tbl)
    else if check (build_expects
                     (new_item (new_game gameId creator invitee now)))
                  (current tbl gameId)
    then (Ret true,
          Some (<[gameId := new_game gameId creator invitee now]> tbl))
    else (Raise ConditionalCheckFailedException, Some tbl).
Proof.
  unfold createNewGame. fold (new_game gameId creator invitee now).
  unfold save, needs_save, put_item.
  rewrite bool_decide_eq_true_2 by apply insert_non_empty.
  change (data (new_item ?d)) with d.
  rewrite new_game_lookup. simpl. unfold valid_key.
  case_bool_decide; [done|]. by destruct (check _ _).
Qed.


Lemma check_new_taken gameId creator invitee now (tbl : Table) rec :
  tbl !! gameId = Some rec → is_Some (rec !! "GameId") →
  check (build_expects (new_item (new_game gameId creator invitee now)))
        (current tbl gameId) = false.
Proof.
  intros Hrec [g' Hg']. apply not_true_is_false. intros Hc.
  rewrite check_iff in Hc. specialize (Hc "GameId" Exists_False).
  rewrite build_expects_lookup in Hc. simpl in Hc.
  rewrite lookup_empty, new_game_lookup in Hc. simpl in Hc.
  specialize (Hc eq_refl).
  by rewrite (current_Some _ _ _ Hrec), Hg' in Hc.
Qed.

Lemma createNewGame_taken gameId creator invitee now (tbl : Table) rec :
  tbl !! gameId = Some rec → is_Some (rec !! "GameId") →
  (createNewGame gameId creator invitee now (Some tbl)).2 = Some tbl.
Proof.
  intros Hrec Hg. rewrite createNewGame_eq.
  case_bool_decide; [done|].
  by rewrite (check_new_taken _ _ _ _ _ _ Hrec Hg).
Qed.

End Saving.

(** ** Finalisation *)

Section Finalisation.

Lemma changeGameToFinishedState_done (item : ItemObj) result user now db :
  is_Some (getitem item "Result") →
  changeGameToFinishedState item result user now db = (Ret true, item, db).
Proof.
  intros [r Hr]. unfold changeGameToFinishedState.
  rewrite bool_decide_eq_true_2; [done|]. by rewrite Hr.
Qed.

Lemma changeGameToFinishedState_open (tbl : Table) (rec : Item)
    g h o result user now :
  tbl !! g = Some rec → rec !! "GameId" = Some g → g ≠ "" →
  rec !! "HostId" = Some h → rec !! "OpponentId" = Some o →
  rec !! "Result" = None →
  let rec' := finished_record rec (final_result result user h o) now in
  changeGameToFinishedState (loaded rec) result user now (Some tbl) =
    (Ret true, loaded rec', Some (<[g := rec']> tbl)).
Proof.
  intros Hrec Hg Hne Hh Ho Hres rec'.
  unfold changeGameToFinishedState.
  rewrite bool_decide_eq_false_2 by (unfold getitem; simpl; rewrite Hres; by intros ?).
  match goal with |- save ?it _ = _ =>
    assert (it = mkItem rec' rec) as ->
  end.
  { subst rec'. unfold finished_record, final_result, setitem, getitem, loaded.
    simpl. rewrite !lookup_insert_ne by done. rewrite Hh, Ho.
    repeat case_bool_decide; simpl; congruence. }
  apply (save_loaded (mkItem rec' rec) tbl g); simpl; [|..|done]; [| |done].
  - intros Heq. assert (rec' !! "Result" = rec !! "Result") as E
      by (by rewrite Heq).
    subst rec'. unfold finished_record in E.
    by rewrite lookup_insert_eq, Hres in E.
  - subst rec'. unfold finished_record.
    by rewrite !lookup_insert_ne by done.
Qed.

End Finalisation.



(** ** Creation *)



(** ** Listings *)

Section Listings.

Lemma leb_lt_eq a b :
  String.leb a b = true ↔ OrderedTypeEx.String_as_OT.lt a b ∨ a = b.
Proof.
  unfold String.leb. destruct (String.compare a b) eqn:E.
  - apply String.compare_eq_iff in E. subst. split; auto.
  - apply OrderedTypeEx.String_as_OT.cmp_lt in E. split; auto.
  - split; [done|]. intros [H| ->].
    + apply OrderedTypeEx.String_as_OT.cmp_lt in H.
      unfold OrderedTypeEx.String_as_OT.cmp in H. congruence.
    + assert (String.compare b b = Eq) as E'
        by (by apply OrderedTypeEx.String_as_OT.cmp_eq).
      congruence.
Qed.

Lemma leb_trans a b c :
  String.leb a b = true → String.leb b c = true → String.leb a c = true.
Proof.
  rewrite !leb_lt_eq. intros [H1| ->] [H2| ->]; auto.
  left. eapply OrderedTypeEx.String_as_OT.lt_trans; eauto.
Qed.

#[local] Instance newer_eq_trans : Transitive newer_eq.
Proof. intros x y z Hxy Hyz. unfold newer_eq in *. by eapply leb_trans. Qed.

#[local] Instance newer_eq_total : Total newer_eq.
Proof. intros x y. unfold newer_eq. apply String.leb_total. Qed.

Lemma ranked_sorted tbl hash_attr user prefix :
  StronglySorted newer_eq (ranked tbl hash_attr user prefix).
Proof. unfold ranked. apply StronglySorted_merge_sort; apply _. Qed.

Lemma ranked_perm tbl hash_attr user prefix :
  ranked tbl hash_attr user prefix
  ≡ₚ filter (λ r, matches hash_attr user prefix r = true) (records tbl).
Proof. unfold ranked. apply merge_sort_Permutation. Qed.

Lemma query_Some (tbl : Table) hash_attr user prefix n :
  user ≠ "" →
  query (Some tbl) hash_attr user prefix n =
    mkResultSet (loaded <$> take n (ranked tbl hash_attr user prefix))
                StopIteration.
Proof. intros H. unfold query. by rewrite bool_decide_eq_false_2. Qed.

Lemma query_None hash_attr user prefix n :
  user ≠ "" →
  query None hash_attr user prefix n =
    mkResultSet [] (JSONResponseError ResourceNotFound).
Proof. intros H. unfold query. by rewrite bool_decide_eq_false_2. Qed.

Lemma getGameInvites_loop_stop n (l acc : list ItemObj) :
  getGameInvites_loop n (mkResultSet l StopIteration) acc =
    Ret (Some (acc ++ take n l)%list).
Proof.
  revert l acc. induction n as [|n IH]; intros l acc; simpl.
  - by rewrite app_nil_r.
  - destruct l as [|x l]; simpl.
    + by rewrite app_nil_r.
    + unfold next. simpl. rewrite IH. by rewrite <- app_assoc.
Qed.

Lemma matches_pending (r : Item) u :
  matches "OpponentId" u "PENDING_" r = true
  ↔ r !! "OpponentId" = Some u ∧ status r = Some PENDING.
Proof.
  unfold matches. rewrite andb_true_iff, bool_decide_eq_true.
  rewrite status_pending. unfold holds. by destruct (r !! "StatusDate").
Qed.

End Listings.

(** C8.  [getGameInvites] for a user returns records of the table whose
    OpponentId is the user and whose status prefix is PENDING, most
    recent first and at most 10: the returned records together with the
    omitted ones are exactly the matching records, records are omitted
    only when 10 are returned, and none of the omitted is more recent
    than a returned one.  For an absent user and for the empty user name
    the result is the empty list, not an error. *)
Theorem getGameInvites_spec (tbl : Table) (u : string) :
  (∀ db, getGameInvites None db = Ret (Some [])
         ∧ getGameInvites (Some "") db = Ret (Some []))
  ∧ (u ≠ "" →
     ∃ l rest : list Item,
       getGameInvites (Some u) (Some tbl) = Ret (Some (loaded <$> l))
       ∧ (l ++ rest)%list ≡ₚ
           filter (λ r, r !! "OpponentId" = Some u ∧ status r = Some PENDING)
                  (records tbl)
       ∧ (List.length l ≤ 10)%nat
       ∧ (rest ≠ [] → List.length l = 10)
       ∧ StronglySorted newer_eq l
       ∧ (∀ r r', r ∈ l → r' ∈ rest → newer_eq r r')).
Proof.
  split; [by intros [tbl'|]|].
  intros Hu.
  set (all := ranked tbl "OpponentId" u "PENDING_").
  exists (take 10 all), (drop 10 all).
  pose proof (ranked_sorted tbl "OpponentId" u "PENDING_") as Hsorted.
  fold all in Hsorted. rewrite <- (take_drop 10 all) in Hsorted.
  repeat split.
  - unfold getGameInvites. rewrite query_Some by done. fold all.
    rewrite getGameInvites_loop_stop. simpl.
    by rewrite <- fmap_take, take_idemp.
  - rewrite take_drop. unfold all. rewrite ranked_perm.
    erewrite list_filter_iff; [done|]. intros r. apply matches_pending.
  - rewrite length_take. lia.
  - intros Hrest. rewrite length_take.
    destruct (decide (10 ≤ List.length all)%nat) as [|Hlt]; [lia|].
    exfalso. apply Hrest. apply drop_ge. lia.
  - by apply StronglySorted_app_1_l in Hsorted.
  - intros r r' Hr Hr'.
    by apply (StronglySorted_app_1_elem_of _ _ _ _ _ Hsorted).
Qed.

(** Bob has one pending invite, from Alice. *)
Lemma getGameInvites_spec_witness :
  ∃ l rest : list Item,
    getGameInvites (Some "bob") (Some {[ "g" := pending_record ]}) =
      Ret (Some (loaded <$> l))
    ∧ (l ++ rest)%list ≡ₚ
        filter (λ r, r !! "OpponentId" = Some "bob" ∧ status r = Some PENDING)
               (records {[ "g" := pending_record ]})
    ∧ (List.length l ≤ 10)%nat
    ∧ (rest ≠ [] → List.length l = 10)
    ∧ StronglySorted newer_eq l
    ∧ (∀ r r', r ∈ l → r' ∈ rest → newer_eq r r').
Proof.
  apply (getGameInvites_spec {[ "g" := pending_record ]} "bob").
  discriminate.
Defined.

(** C9 (as stated, refuted).  With no table, the in-progress listing of
    Alice ends in the store's error, not in a TableNotFound report. *)
Lemma getGamesWithStatus_missing_table :
  ¬ TableNotFound_as_specified.
Proof.
  intros H. destruct (H (Some "alice") "IN_PROGRESS") as [_ H2].
  vm_compute in H2. discriminate H2.
Qed.

(** C9 (amended).  For a user with a non-empty name and a missing table,
    [getGameInvites] returns None, which it never returns on an existing
    table, where the result is a list; [getGamesWithStatus] does not
    return at all: the store's ResourceNotFound error reaches the caller
    (no list, so still no empty result), and the index page asks for the
    invites first and answers with the table page without calling it.
    For an absent user both listings return the empty list without
    consulting the store. *)
Theorem missing_table_spec (cmp : ItemObj → ItemObj → py comparison)
    (u status : string) :
  u ≠ "" →
  getGameInvites (Some u) None = Ret None
  ∧ (∀ tbl : Table, ∃ l, getGameInvites (Some u) (Some tbl) = Ret (Some l))
  ∧ getGamesWithStatus cmp (Some u) status None =
      Raise (JSONResponseError ResourceNotFound)
  ∧ Application.index (Some u) None =
      Ret (Application.mkResponse
             ["Table has not been created yet, please follow this link to create table."]
             "table.html")
  ∧ (∀ db, getGameInvites None db = Ret (Some [])
           ∧ getGamesWithStatus cmp None status db = Ret []).
Proof.
  intros Hu.
  assert (getGameInvites (Some u) None = Ret None) as Hnone.
  { unfold getGameInvites. by rewrite query_None. }
  repeat split.
  - exact Hnone.
  - intros tbl. unfold getGameInvites. rewrite query_Some by done.
    rewrite getGameInvites_loop_stop. by eexists.
  - unfold getGamesWithStatus. by rewrite !query_None.
  - unfold Application.index. by rewrite Hnone.
Qed.

(** Alice opens the index page before the table exists. *)
Lemma missing_table_spec_witness :
  Application.index (Some "alice") None =
    Ret (Application.mkResponse
           ["Table has not been created yet, please follow this link to create table."]
           "table.html").
Proof.
  apply (missing_table_spec Game.cmp_items "alice" "IN_PROGRESS").
  discriminate.
Defined.


(** ** The life cycle of a game *)

Section Lifecycle.






Lemma status_ext (rec rec' : Item) :
  rec' !! "StatusDate" = rec !! "StatusDate" → status rec' = status rec.
Proof. intros H. unfold status. by rewrite H. Qed.

Lemma status_StatusDate (rec : Item) :
  is_Some (status rec) → is_Some (rec !! "StatusDate").
Proof.
  intros [st Hst]. unfold status in Hst.
  destruct (rec !! "StatusDate"); [by eexists|done].
Qed.

Lemma getGame_Some (tbl : Table) g :
  getGame g (Some tbl) = loaded <$> tbl !! g.
Proof. unfold getGame, get_item. by destruct (tbl !! g). Qed.





End Lifecycle.

Section Steps.


Lemma scan_total board mine theirs ws :
  Forall (in_range board) ws → ∃ r, scan board mine theirs ws = Ret r.
Proof.
  induction ws as [|w ws IH]; intros Hr; [by eexists|].
  apply Forall_cons in Hr as [Hw Hr]. simpl.
  rewrite !line_is_full by done. simpl.
  destruct (bool_decide (full board mine w)); simpl; [by eexists|].
  rewrite ?line_is_full by done. simpl.
  destruct (bool_decide (full board theirs w)); simpl; [by eexists|].
  by apply IH.
Qed.

Lemma checkForGameResult_total board item user :
  List.length board = 9 → ∃ r, checkForGameResult board item user = Ret r.
Proof.
  intros Hlen. unfold checkForGameResult.
  edestruct (scan_total board) as [r ->];
    [by apply winConditions_in_range|].
  simpl. destruct r; [by eexists|]. case_bool_decide; by eexists.
Qed.






End Steps.




(** ** The order of the status listings *)

Section ListingOrder.

Lemma split_cons_head sep (s : string) :
  ∃ w ws, Game.split sep s = w :: ws.
Proof.
  destruct s as [|c s]; simpl; [by eexists _, _|].
  destruct (Ascii.eqb c sep); [by eexists _, _|].
  destruct (Game.split sep s); by eexists _, _.
Qed.

Lemma split_sep sep (s : string) :
  Game.split sep (String sep s) = "" :: Game.split sep s.
Proof. cbn [Game.split]. by rewrite Ascii.eqb_refl. Qed.

Lemma split_other sep c (s : string) w ws :
  c ≠ sep → Game.split sep s = w :: ws →
  Game.split sep (String c s) = String c w :: ws.
Proof.
  intros Hc Hs. cbn [Game.split]. rewrite Hs.
  by rewrite (proj2 (Ascii.eqb_neq c sep) Hc).
Qed.

Lemma split_in_progress t :
  ∃ ws, Game.split "_" ("IN_PROGRESS_" ++ t) = "IN" :: "PROGRESS" :: ws.
Proof.
  destruct (split_cons_head "_" t) as (w & ws & Ht).
  exists (w :: ws).
  change ("IN_PROGRESS_" ++ t)
    with (String "I" (String "N" (String "_" (String "P" (String "R"
         (String "O" (String "G" (String "R" (String "E" (String "S"
         (String "S" (String "_" t)))))))))))).
  repeat (erewrite split_other;
          [reflexivity|discriminate|]).
  rewrite split_sep.
  repeat (erewrite split_other;
          [reflexivity|discriminate|]).
  rewrite split_sep. by rewrite Ht.
Qed.

Lemma prefix_split p s :
  String.prefix p s = true → ∃ t, s = p ++ t.
Proof.
  revert s. induction p as [|a p IH]; intros s H; [by exists s|].
  destruct s as [|b s]; [done|]. rewrite prefix_cons in H.
  destruct (ascii_dec a b) as [<-|]; [|done].
  destruct (IH s H) as [t ->]. by exists t.
Qed.

(** [__cmp__] does not tell two games in progress apart. *)
Lemma cmp_items_in_progress (a b : ItemObj) :
  status (data a) = Some IN_PROGRESS → status (data b) = Some IN_PROGRESS →
  Game.cmp_items a b = Ret Eq.
Proof.
  intros Ha Hb. apply status_in_progress in Ha, Hb.
  unfold holds in Ha, Hb. unfold Game.cmp_items, Game.init, getitem.
  destruct (data a !! "StatusDate") as [sa|]; [|done].
  destruct (data b !! "StatusDate") as [sb|]; [|done].
  destruct (prefix_split _ _ Ha) as [ta ->].
  destruct (prefix_split _ _ Hb) as [tb ->].
  destruct (split_in_progress ta) as [wa Hwa].
  destruct (split_in_progress tb) as [wb Hwb].
  rewrite Hwa, Hwb. reflexivity.
Qed.

(** Sorting leaves a list as it is when no two elements differ. *)
Lemma sort_reverse_all_equal {A} (cmp : A → A → py comparison) (l : list A) :
  (∀ a b, a ∈ l → b ∈ l → cmp a b = Ret Eq) →
  sort_reverse cmp l = Ret l.
Proof.
  induction l as [|x l IH]; intros Heq; [done|]. simpl.
  rewrite IH by (intros a b Ha Hb; apply Heq; by apply elem_of_cons; right).
  simpl. destruct l as [|y l]; [done|]. simpl.
  rewrite Heq; [done| |]; set_solver.
Qed.

(** For games in progress the status listing is the hosted games
    followed by the games the user was invited to, cut at 10: the
    sort does not move any. *)
Lemma getGamesWithStatus_in_progress_merged (tbl : Table) (u : string) :
  u ≠ "" →
  (∀ r, r ∈ records tbl →
        is_Some (r !! "StatusDate") → is_Some (status r)) →
  getGamesWithStatus Game.cmp_items (Some u) "IN_PROGRESS" (Some tbl) =
    Ret (take 10
           (loaded <$>
              (take 10 (ranked tbl "HostId" u "IN_PROGRESS")
               ++ take 10 (ranked tbl "OpponentId" u "IN_PROGRESS"))%list)).
Proof.
  intros Hu Hwf. unfold getGamesWithStatus.
  rewrite !query_Some by done. unfold to_list. simpl.
  rewrite <- fmap_app.
  rewrite sort_reverse_all_equal; [done|].
  assert (∀ attr r, r ∈ ranked tbl attr u "IN_PROGRESS" →
                    status r = Some IN_PROGRESS) as Hst.
  { intros attr r Hr. rewrite ranked_perm in Hr.
    apply list_elem_of_filter in Hr as [Hm Hr]. unfold matches in Hm.
    apply andb_true_iff in Hm as [_ Hm].
    destruct (r !! "StatusDate") as [s|] eqn:Hs; [|done].
    destruct (Hwf r Hr) as [st Hst]; [by rewrite Hs; eexists|].
    unfold status in *. rewrite Hs in *.
    destruct (prefix_split _ _ Hm) as [t ->].
    destruct (String.prefix "PENDING_" _) eqn:E1; [done|].
    destruct (String.prefix "IN_PROGRESS_" _) eqn:E2; [done|].
    destruct (String.prefix "FINISHED_" _) eqn:E3; [done|]. done. }
  assert (∀ x, x ∈ loaded <$>
                 (take 10 (ranked tbl "HostId" u "IN_PROGRESS")
                  ++ take 10 (ranked tbl "OpponentId" u "IN_PROGRESS"))%list →
               status (data x) = Some IN_PROGRESS) as Hall.
  { intros x Hx. apply list_elem_of_fmap in Hx as (r & -> & Hr). simpl.
    apply elem_of_app in Hr as [Hr|Hr];
      apply elem_of_take in Hr as (i & Hr & _);
      apply list_elem_of_lookup_2 in Hr; by eapply Hst. }
  intros a b Ha Hb. apply cmp_items_in_progress; by apply Hall.
Qed.

End ListingOrder.

(** * Further properties *)

(** Closes a side condition on concrete data by evaluation. *)
Ltac evaluated :=
  first [ reflexivity | discriminate | by eexists | by vm_compute ].

(** ** What a run of the engine keeps *)

Section RunInvariants.



Lemma elem_of_squares s :
  s ∈ squares →
  s ≠ "GameId" ∧ s ≠ "HostId" ∧ s ≠ "OpponentId" ∧ s ≠ "OUser"
  ∧ s ≠ "Turn" ∧ s ≠ "StatusDate" ∧ s ≠ "Result".
Proof.
  unfold squares. intros H.
  repeat (apply elem_of_cons in H as [->|H]; [done|]).
  by apply elem_of_nil in H.
Qed.


Lemma status_finished_record rec res now :
  status (finished_record rec res now) = Some FINISHED.
Proof.
  unfold finished_record.
  rewrite (status_ext (<["StatusDate" := "FINISHED_" ++ now]> rec)).
  - apply status_insert_finished.
  - by rewrite !lookup_insert_ne by done.
Qed.


End RunInvariants.

Section RunInvariantsKept.








End RunInvariantsKept.



(** ** Moves and the board *)

Section MovesAndBoard.

Lemma move_succeeds (item : ItemObj) (tbl : Table) (rec : Item)
    g h o pos user :
  getitem item "GameId" = Some g → g ≠ "" →
  getitem item "HostId" = Some h → getitem item "OpponentId" = Some o →
  tbl !! g = Some rec → pos ≠ "Turn" → pos ≠ "StatusDate" →
  status rec = Some IN_PROGRESS → rec !! "Turn" = Some user →
  rec !! pos = None →
  updateBoardAndTurn item pos user (Some tbl) =
    (Ret true,
     Some (<[g := <["Turn" := if bool_decide (user = h) then o else h]>
                  (<[pos := representation item user]> rec)]> tbl)).
Proof.
  intros Hg Hne Hh Ho Hrec HT HS Hst Hturn Hpos.
  rewrite (updateBoardAndTurn_eq item tbl g h o pos user Hg Hne Hh Ho).
  rewrite (current_Some _ _ _ Hrec), Hrec.
  by rewrite (proj2 (move_check_cell rec pos user HT HS)).
Qed.

Lemma squares_NoDup : NoDup squares.
Proof. apply (bool_decide_unpack _). vm_compute. exact I. Qed.

Lemma getBoardState_insert (rec : Item) pos m k :
  squares !! k = Some pos →
  getBoardState (loaded (<[pos := m]> rec))
  = <[k := m]> (getBoardState (loaded rec)).
Proof.
  intros Hk. apply list_eq. intros i. unfold getBoardState.
  destruct (decide (i = k)) as [->|Hne].
  - rewrite list_lookup_insert_eq
      by (rewrite length_fmap; by apply lookup_lt_Some in Hk).
    rewrite list_lookup_fmap, Hk. unfold getitem. simpl.
    by rewrite lookup_insert_eq.
  - rewrite list_lookup_insert_ne by done. rewrite !list_lookup_fmap.
    destruct (squares !! i) as [s|] eqn:Hs; [|done].
    unfold getitem. simpl.
    rewrite lookup_insert_ne; [done|]. intros ->. apply Hne.
    by apply (NoDup_lookup squares i k s squares_NoDup).
Qed.

Lemma getBoardState_other (rec : Item) key v :
  key ∉ squares →
  getBoardState (loaded (<[key := v]> rec)) = getBoardState (loaded rec).
Proof.
  intros Hk. unfold getBoardState.
  apply list_fmap_ext. intros i s Hs. unfold getitem. simpl.
  rewrite lookup_insert_ne; [done|]. intros ->.
  apply Hk. by apply list_elem_of_lookup_2 in Hs.
Qed.

Lemma Turn_not_square : "Turn" ∉ squares.
Proof. intros H. by destruct (elem_of_squares _ H) as (_&_&_&_&?&_). Qed.

Lemma Result_not_square : "Result" ∉ squares.
Proof. intros H. by destruct (elem_of_squares _ H) as (_&_&_&_&_&_&?). Qed.

End MovesAndBoard.

(** X3.  A successful move on the [k]-th square changes the board that
    [getBoardState] reads in exactly that place: the blank at [k]
    becomes the mover's marker and the other eight cells stay. *)
Theorem board_after_move (tbl : Table) (rec : Item)
    (g h o position user : string) (k : nat) :
  tbl !! g = Some rec → rec !! "GameId" = Some g → g ≠ "" →
  rec !! "HostId" = Some h → rec !! "OpponentId" = Some o →
  squares !! k = Some position →
  status rec = Some IN_PROGRESS → rec !! "Turn" = Some user →
  rec !! position = None →
  ∃ rec',
    updateBoardAndTurn (loaded rec) position user (Some tbl) =
      (Ret true, Some (<[g := rec']> tbl))
    ∧ getBoardState (loaded rec) !! k = Some " "
    ∧ getBoardState (loaded rec') =
        <[k := representation (loaded rec) user]> (getBoardState (loaded rec)).
Proof.
  intros Hrec Hg Hne Hh Ho Hk Hst Hturn Hpos.
  assert (position ∈ squares) as Hin by (by eapply list_elem_of_lookup_2).
  destruct (elem_of_squares _ Hin) as (_ & _ & _ & _ & HT & HS & _).
  eexists. split; [|split].
  - by apply (move_succeeds (loaded rec) tbl rec g h o).
  - unfold getBoardState, getitem. rewrite list_lookup_fmap, Hk. simpl.
    by rewrite Hpos.
  - rewrite getBoardState_other by apply Turn_not_square.
    by apply getBoardState_insert.
Qed.

(** Bob marks the centre of the empty board. *)
Lemma board_after_move_witness :
  ∃ rec',
    updateBoardAndTurn (loaded in_progress_record) "MiddleMiddle" "bob"
      (Some {[ "g" := in_progress_record ]}) =
      (Ret true, Some (<["g" := rec']> {[ "g" := in_progress_record ]}))
    ∧ getBoardState (loaded in_progress_record) !! 4 = Some " "
    ∧ getBoardState (loaded rec') =
        <[4 := representation (loaded in_progress_record) "bob"]>
          (getBoardState (loaded in_progress_record)).
Proof.
  apply (board_after_move {[ "g" := in_progress_record ]} in_progress_record
           "g" "alice" "bob" "MiddleMiddle" "bob" 4);
    evaluated.
Defined.

(** X4.  Nobody moves twice in a row: after a participant's successful
    move in a game of two different participants, every further move of
    the same user, on any position and even through the item read before
    the first move, returns False and changes nothing. *)
Theorem no_second_move (item : ItemObj) (tbl : Table) (rec : Item)
    (g h o position user : string) :
  getitem item "GameId" = Some g → g ≠ "" →
  getitem item "HostId" = Some h → getitem item "OpponentId" = Some o →
  h ≠ o → user = h ∨ user = o →
  tbl !! g = Some rec → position ∈ squares →
  status rec = Some IN_PROGRESS → rec !! "Turn" = Some user →
  rec !! position = None →
  ∃ tbl' : Table,
    updateBoardAndTurn item position user (Some tbl) = (Ret true, Some tbl')
    ∧ ∀ position',
        updateBoardAndTurn item position' user (Some tbl')
        = (Ret false, Some tbl').
Proof.
  intros Hg Hne Hh Ho Hho Huser Hrec Hin Hst Hturn Hpos.
  destruct (elem_of_squares _ Hin) as (_ & _ & _ & _ & HT & HS & _).
  eexists. split.
  - by apply (move_succeeds item tbl rec g h o).
  - intros position'.
    rewrite (updateBoardAndTurn_eq item _ g h o position' user Hg Hne Hh Ho).
    erewrite current_Some by apply lookup_insert_eq.
    rewrite (move_check_turn _ position' user
               (if bool_decide (user = h) then o else h)); [done| |].
    + apply lookup_insert_eq.
    + case_bool_decide; destruct Huser; congruence.
Qed.

(** Bob has played the top left cell; his next attempt is refused. *)
Lemma no_second_move_witness :
  ∃ tbl' : Table,
    updateBoardAndTurn (loaded in_progress_record) "TopLeft" "bob"
      (Some {[ "g" := in_progress_record ]}) = (Ret true, Some tbl')
    ∧ ∀ position',
        updateBoardAndTurn (loaded in_progress_record) position' "bob"
          (Some tbl') = (Ret false, Some tbl').
Proof.
  apply (no_second_move (loaded in_progress_record)
           {[ "g" := in_progress_record ]} in_progress_record
           "g" "alice" "bob" "TopLeft" "bob");
    try evaluated.
  - by right.
  - unfold squares. set_solver.
Defined.

(** X5.  [updateBoardAndTurn] does not check that the position is one of
    the nine squares.  The turn holder's move on the attribute "Result"
    of a game in progress succeeds: the board is unchanged, and from then
    on [changeGameToFinishedState] finds a Result and never finishes the
    game, whatever it is called with. *)
Theorem move_on_Result (tbl : Table) (rec : Item) (g h o user : string) :
  tbl !! g = Some rec → rec !! "GameId" = Some g → g ≠ "" →
  rec !! "HostId" = Some h → rec !! "OpponentId" = Some o →
  status rec = Some IN_PROGRESS → rec !! "Turn" = Some user →
  rec !! "Result" = None →
  ∃ rec',
    updateBoardAndTurn (loaded rec) "Result" user (Some tbl) =
      (Ret true, Some (<[g := rec']> tbl))
    ∧ getBoardState (loaded rec') = getBoardState (loaded rec)
    ∧ status rec' = Some IN_PROGRESS
    ∧ ∀ result u now,
        changeGameToFinishedState (loaded rec') result u now
          (Some (<[g := rec']> tbl)) =
        (Ret true, loaded rec', Some (<[g := rec']> tbl)).
Proof.
  intros Hrec Hg Hne Hh Ho Hst Hturn Hres.
  eexists. split; [|split; [|split]].
  - by apply (move_succeeds (loaded rec) tbl rec g h o).
  - rewrite getBoardState_other by apply Turn_not_square.
    by rewrite getBoardState_other by apply Result_not_square.
  - rewrite <- Hst. apply status_ext. by rewrite !lookup_insert_ne.
  - intros result u now. apply changeGameToFinishedState_done.
    unfold getitem. simpl. rewrite lookup_insert_ne by done.
    rewrite lookup_insert_eq. by eexists.
Qed.

(** Bob, whose turn it is, "plays" the attribute Result. *)
Lemma move_on_Result_witness :
  ∃ rec',
    updateBoardAndTurn (loaded in_progress_record) "Result" "bob"
      (Some {[ "g" := in_progress_record ]}) =
      (Ret true, Some (<["g" := rec']> {[ "g" := in_progress_record ]}))
    ∧ getBoardState (loaded rec') = getBoardState (loaded in_progress_record)
    ∧ status rec' = Some IN_PROGRESS
    ∧ ∀ result u now,
        changeGameToFinishedState (loaded rec') result u now
          (Some (<["g" := rec']> {[ "g" := in_progress_record ]})) =
        (Ret true, loaded rec',
         Some (<["g" := rec']> {[ "g" := in_progress_record ]})).
Proof.
  apply (move_on_Result {[ "g" := in_progress_record ]} in_progress_record
           "g" "alice" "bob" "bob");
    evaluated.
Defined.

(** ** The result from both sides *)

Section BothSides.

Lemma scan_swap board m t ws :
  m ≠ t → Forall (in_range board) ws →
  ∃ r, scan board m t ws = Ret r
       ∧ scan board t m ws = Ret (flip_result r)
       ∧ (r = None ∨ r = Some "Win" ∨ r = Some "Lose").
Proof.
  intros Hne. induction ws as [|w ws IH]; intros Hr.
  - exists None. auto.
  - apply Forall_cons in Hr as [Hw Hr]. simpl.
    rewrite !line_is_full by done.
    destruct (decide (full board m w)) as [Hm|Hm];
      destruct (decide (full board t w)) as [Ht|Ht];
      rewrite ?(bool_decide_eq_true_2 _ Hm), ?(bool_decide_eq_false_2 _ Hm),
        ?(bool_decide_eq_true_2 _ Ht), ?(bool_decide_eq_false_2 _ Ht);
      simpl.
    + by destruct (full_exclusive board m t w Hne Hm).
    + exists (Some "Win"). auto.
    + exists (Some "Lose"). auto.
    + by apply IH.
Qed.

Lemma marker_other item u1 u2 :
  marker_of item u1 ≠ marker_of item u2 →
  other_marker (marker_of item u1) = marker_of item u2
  ∧ other_marker (marker_of item u2) = marker_of item u1.
Proof.
  unfold marker_of, other_marker. repeat case_bool_decide; done.
Qed.

Lemma checkForGameResult_both board item u1 u2 :
  List.length board = 9 → marker_of item u1 ≠ marker_of item u2 →
  ∃ r, checkForGameResult board item u1 = Ret r
       ∧ checkForGameResult board item u2 = Ret (flip_result r)
       ∧ (r = None ∨ r = Some "Win" ∨ r = Some "Lose" ∨ r = Some "Tie").
Proof.
  intros Hlen Hne. destruct (marker_other item u1 u2 Hne) as [H12 H21].
  destruct (scan_swap board (marker_of item u1) (marker_of item u2)
              winConditions Hne (winConditions_in_range board Hlen))
    as (r & Hr1 & Hr2 & Hcases).
  unfold checkForGameResult.
  fold (marker_of item u1). fold (marker_of item u2).
  fold (other_marker (marker_of item u1)).
  fold (other_marker (marker_of item u2)).
  rewrite H12, H21, Hr1, Hr2. simpl.
  destruct Hcases as [-> | [-> | ->]].
  - change (flip_result None) with (@None string).
    case_bool_decide; eexists; (split; [done|]); split; auto.
  - exists (Some "Win"). split; [done|]. split; [done|]. auto.
  - exists (Some "Lose"). split; [done|]. split; [done|]. auto.
Qed.

Lemma participants_markers (rec : Item) h u :
  rec !! "OUser" = Some h → u ≠ h →
  marker_of (loaded rec) h = "O" ∧ marker_of (loaded rec) u = "X".
Proof.
  intros HO Hu. unfold marker_of, getitem. simpl. rewrite HO.
  rewrite bool_decide_eq_true_2 by done.
  by rewrite bool_decide_eq_false_2 by congruence.
Qed.

Lemma checkForGameResult_marker board item u1 u2 :
  marker_of item u1 = marker_of item u2 →
  checkForGameResult board item u1 = checkForGameResult board item u2.
Proof.
  intros H. unfold checkForGameResult.
  fold (marker_of item u1). fold (marker_of item u2). by rewrite H.
Qed.

(** What the page of a game writes when it finds [result]. *)
Lemma game_finalises (tbl : Table) (rec : Item) g h o user result now :
  tbl !! g = Some rec → rec !! "GameId" = Some g → g ≠ "" →
  rec !! "HostId" = Some h → rec !! "OpponentId" = Some o →
  rec !! "Result" = None →
  checkForGameResult (getBoardState (loaded rec)) (loaded rec) user
    = Ret (Some result) →
  (Application.game g (Some user) now (Some tbl)).2 =
    Some (<[g := finished_record rec (final_result result user h o) now]> tbl).
Proof.
  intros Hrec Hg Hne Hh Ho Hres Hr. unfold Application.game.
  rewrite getGame_Some, Hrec. simpl. rewrite Hr.
  by rewrite (changeGameToFinishedState_open tbl rec g h o).
Qed.

Lemma game_keeps (tbl : Table) (rec : Item) g user now :
  tbl !! g = Some rec →
  is_Some (rec !! "Result")
  ∨ checkForGameResult (getBoardState (loaded rec)) (loaded rec) user
    = Ret None →
  (Application.game g (Some user) now (Some tbl)).2 = Some tbl.
Proof.
  intros Hrec Hcase. unfold Application.game.
  rewrite getGame_Some, Hrec. simpl.
  destruct (checkForGameResult_total (getBoardState (loaded rec))
              (loaded rec) user eq_refl) as [r Hr].
  rewrite Hr. destruct r as [result|]; [|done].
  destruct Hcase as [Hres|Hnone]; [|congruence].
  by rewrite changeGameToFinishedState_done.
Qed.

End BothSides.

(** X6.  On a 9-element board two viewers with different markers get
    mirrored results: Win for one is Lose for the other, Tie and None
    are the same for both, and nothing else is ever returned. *)
Theorem checkForGameResult_mirrored (board : list string) (item : ItemObj)
    (u1 u2 : string) :
  List.length board = 9 →
  representation item u1 ≠ representation item u2 →
  ∃ r, checkForGameResult board item u1 = Ret r
       ∧ checkForGameResult board item u2 = Ret (flip_result r)
       ∧ (r = None ∨ r = Some "Win" ∨ r = Some "Lose" ∨ r = Some "Tie").
Proof.
  intros Hlen Hne. apply checkForGameResult_both; [done|].
  intros Heq. apply Hne. unfold representation, marker_of in *.
  repeat case_bool_decide; congruence.
Qed.

(** Alice (O) and Bob (X) look at Bob's completed top row. *)
Lemma checkForGameResult_mirrored_witness :
  ∃ r, checkForGameResult (getBoardState (loaded won_record))
         (loaded won_record) "bob" = Ret r
       ∧ checkForGameResult (getBoardState (loaded won_record))
           (loaded won_record) "alice" = Ret (flip_result r)
       ∧ (r = None ∨ r = Some "Win" ∨ r = Some "Lose" ∨ r = Some "Tie").
Proof.
  apply (checkForGameResult_mirrored (getBoardState (loaded won_record))
           (loaded won_record) "bob" "alice" eq_refl).
  by vm_compute.
Defined.

(** X7.  Whichever of the two participants opens the page of a game, the
    table afterwards is the same: the same game is finished or not, and
    with the same Result. *)
Theorem game_same_for_both (tbl : Table) (rec : Item) (g h o now : string) :
  tbl !! g = Some rec → rec !! "GameId" = Some g → g ≠ "" →
  rec !! "HostId" = Some h → rec !! "OpponentId" = Some o →
  rec !! "OUser" = Some h → h ≠ o →
  (Application.game g (Some h) now (Some tbl)).2
  = (Application.game g (Some o) now (Some tbl)).2.
Proof.
  intros Hrec Hg Hne Hh Ho HO Hho.
  destruct (rec !! "Result") as [res|] eqn:Hres.
  { rewrite !(game_keeps tbl rec g _ now Hrec); auto;
      left; rewrite Hres; by eexists. }
  assert (o ≠ h) as Hoh by congruence.
  destruct (participants_markers rec h o HO Hoh) as [Hmh Hmo].
  destruct (checkForGameResult_both (getBoardState (loaded rec)) (loaded rec)
              h o eq_refl) as (r & Hr1 & Hr2 & Hcases);
    [by rewrite Hmh, Hmo|].
  destruct Hcases as [-> | [-> | [-> | ->]]].
  - by rewrite !(game_keeps tbl rec g _ now Hrec) by auto.
  - rewrite (game_finalises tbl rec g h o h "Win" now) by done.
    rewrite (game_finalises tbl rec g h o o "Lose" now) by done.
    unfold final_result. simpl.
    by rewrite (bool_decide_eq_false_2 (o = h)) by done.
  - rewrite (game_finalises tbl rec g h o h "Lose" now) by done.
    rewrite (game_finalises tbl rec g h o o "Win" now) by done.
    unfold final_result. simpl.
    by rewrite (bool_decide_eq_true_2 (h = h)) by done.
  - rewrite (game_finalises tbl rec g h o h "Tie" now) by done.
    by rewrite (game_finalises tbl rec g h o o "Tie" now) by done.
Qed.

(** Alice or Bob opens the game Bob has won: Bob is recorded either way. *)
Lemma game_same_for_both_witness :
  (Application.game "g" (Some "alice") now2 (Some {[ "g" := won_record ]})).2
  = (Application.game "g" (Some "bob") now2 (Some {[ "g" := won_record ]})).2.
Proof.
  apply (game_same_for_both {[ "g" := won_record ]} won_record
           "g" "alice" "bob" now2); evaluated.
Defined.

(** X8.  The page of a game does not check that its viewer takes part in
    the game.  Any viewer other than the host is given the marker X, and
    when the board reads Win for that marker and the game has no Result
    yet, the viewer's own name is written as the Result, participant or
    not. *)
Theorem game_records_viewer (tbl : Table) (rec : Item)
    (g h o user now : string) :
  tbl !! g = Some rec → rec !! "GameId" = Some g → g ≠ "" →
  rec !! "HostId" = Some h → rec !! "OpponentId" = Some o →
  rec !! "OUser" = Some h → o ≠ h → user ≠ h →
  rec !! "Result" = None →
  checkForGameResult (getBoardState (loaded rec)) (loaded rec) o
    = Ret (Some "Win") →
  ∃ rec',
    (Application.game g (Some user) now (Some tbl)).2
      = Some (<[g := rec']> tbl)
    ∧ rec' !! "Result" = Some user
    ∧ status rec' = Some FINISHED.
Proof.
  intros Hrec Hg Hne Hh Ho HO Hoh Hu Hres Hwin.
  assert (checkForGameResult (getBoardState (loaded rec)) (loaded rec) user
          = Ret (Some "Win")) as Hwin'.
  { rewrite <- Hwin. apply checkForGameResult_marker.
    destruct (participants_markers rec h user HO Hu) as [_ ->].
    by destruct (participants_markers rec h o HO Hoh) as [_ ->]. }
  eexists. split; [|split].
  - by apply (game_finalises tbl rec g h o user "Win" now).
  - unfold finished_record, final_result. by rewrite lookup_insert_eq.
  - apply status_finished_record.
Qed.

(** Carol, who does not take part, opens the game Bob has just won. *)
Lemma game_records_viewer_witness :
  ∃ rec',
    (Application.game "g" (Some "carol") now2
       (Some {[ "g" := won_record ]})).2
      = Some (<["g" := rec']> {[ "g" := won_record ]})
    ∧ rec' !! "Result" = Some "carol"
    ∧ status rec' = Some FINISHED.
Proof.
  apply (game_records_viewer {[ "g" := won_record ]} won_record
           "g" "alice" "bob" "carol" now2);
    evaluated.
Defined.

(** ** The game wrapper *)

Section GameWrapper.

Lemma split_plain s : plain s = true → Game.split "_" s = [s].
Proof.
  induction s as [|c s IH]; [done|]. cbn [plain Game.split].
  intros H. apply andb_true_iff in H as [Hc Hs].
  apply negb_true_iff in Hc. rewrite Hc, (IH Hs). done.
Qed.

Lemma split_plain_app w s :
  plain w = true →
  Game.split "_" (w ++ String "_" s) = w :: Game.split "_" s.
Proof.
  induction w as [|c w IH]; intros H.
  - apply split_sep.
  - cbn [plain] in H. apply andb_true_iff in H as [Hc Hw].
    apply negb_true_iff, Ascii.eqb_neq in Hc.
    change (String c w ++ String "_" s) with (String c (w ++ String "_" s)).
    by apply split_other; [|apply IH].
Qed.

Lemma init_Some (rec : Item) sd :
  rec !! "StatusDate" = Some sd →
  Game.init (loaded rec) =
    Ret (Game.mkGame (loaded rec) (rec !! "GameId") (rec !! "HostId")
           (rec !! "OpponentId") (Game.split "_" sd) (rec !! "OUser")
           (rec !! "Turn")).
Proof. intros H. unfold Game.init, getitem. simpl. by rewrite H. Qed.

End GameWrapper.

(** X9.  [getStatus] reads back the status the engine wrote: for a
    StatusDate made of PENDING, IN_PROGRESS or FINISHED, an underscore
    and a timestamp without underscore, it returns that status; without
    a StatusDate the wrapper cannot be built. *)
Theorem getStatus_reads_status (rec : Item) (st : Status) (ts : string) :
  plain ts = true →
  rec !! "StatusDate" = Some (status_name st ++ "_" ++ ts) →
  shown_status rec = Ret (status_name st) ∧ status rec = Some st.
Proof.
  intros Hts Hsd. unfold shown_status. rewrite (init_Some rec _ Hsd).
  split.
  - destruct st; cbn [status_name mbind py_bind Game.getStatus
                        Game.statusDate].
    + change ("PENDING" ++ "_" ++ ts) with ("PENDING" ++ String "_" ts).
      rewrite split_plain_app, split_plain by done. reflexivity.
    + change ("IN_PROGRESS" ++ "_" ++ ts)
        with ("IN" ++ String "_" ("PROGRESS" ++ String "_" ts)).
      rewrite !split_plain_app, split_plain by done. reflexivity.
    + change ("FINISHED" ++ "_" ++ ts) with ("FINISHED" ++ String "_" ts).
      rewrite split_plain_app, split_plain by done. reflexivity.
  - destruct st.
    + apply status_pending. rewrite Hsd.
      apply (prefix_app "PENDING_" ts).
    + apply status_in_progress. rewrite Hsd.
      apply (prefix_app "IN_PROGRESS_" ts).
    + apply status_finished. exists (status_name FINISHED ++ "_" ++ ts).
      split; [done|]. apply (prefix_app "FINISHED_" ts).
Qed.

(** The accepted game of Alice and Bob is shown as IN_PROGRESS. *)
Lemma getStatus_reads_status_witness :
  shown_status in_progress_record = Ret "IN_PROGRESS"
  ∧ status in_progress_record = Some IN_PROGRESS.
Proof.
  apply (getStatus_reads_status in_progress_record IN_PROGRESS now1);
    evaluated.
Defined.

(** X10.  What the two participants are shown after the game has been
    finalised from the view of [user]: with neither participant named
    "Tie", the deciding user is shown the result the game was finalised
    with (Win, Lose or Tie) and the other participant the mirrored one. *)
Theorem getResult_after_finalize (rec : Item) (h o user other result now : string) :
  is_Some (rec !! "StatusDate") →
  h ≠ o → h ≠ "Tie" → o ≠ "Tie" →
  (user = h ∧ other = o) ∨ (user = o ∧ other = h) →
  result = "Win" ∨ result = "Lose" ∨ result = "Tie" →
  let rec' := finished_record rec (final_result result user h o) now in
  shown_result rec' user = Ret (Some result)
  ∧ shown_result rec' other = Ret (flip_result (Some result)).
Proof.
  intros [sd Hsd] Hho Hh Ho Hwho Hres rec'.
  assert (rec' !! "StatusDate" = Some ("FINISHED_" ++ now)) as Hsd'.
  { subst rec'. unfold finished_record.
    by rewrite !lookup_insert_ne, lookup_insert_eq by done. }
  unfold shown_result. rewrite !(init_Some rec' _ Hsd').
  unfold Game.getResult, getitem. simpl.
  subst rec'. unfold finished_record. rewrite !lookup_insert_eq.
  unfold final_result, flip_result.
  destruct Hwho as [[-> ->]|[-> ->]];
    destruct Hres as [-> | [-> | ->]]; simpl;
    repeat (case_bool_decide; simplify_eq; simpl; try done);
    by split.
Qed.

(** Alice reads Lose on Bob's winning board and the game is finalised:
    she is shown Lose, Bob is shown Win. *)
Lemma getResult_after_finalize_witness :
  shown_result (finished_record won_record
                  (final_result "Lose" "alice" "alice" "bob") now2) "alice"
    = Ret (Some "Lose")
  ∧ shown_result (finished_record won_record
                    (final_result "Lose" "alice" "alice" "bob") now2) "bob"
    = Ret (flip_result (Some "Lose")).
Proof.
  apply (getResult_after_finalize won_record "alice" "bob" "alice" "bob"
           "Lose" now2);
    try evaluated; auto.
Defined.

(** X11.  A winner called "Tie" is never shown as the winner: when the
    game is finalised as a Win of the user "Tie", every viewer, the
    winner included, is shown a Tie. *)
Theorem getResult_winner_named_Tie (rec : Item) (h o viewer now : string) :
  is_Some (rec !! "StatusDate") →
  shown_result (finished_record rec (final_result "Win" "Tie" h o) now) viewer
  = Ret (Some "Tie").
Proof.
  intros [sd Hsd].
  assert (finished_record rec (final_result "Win" "Tie" h o) now
            !! "StatusDate" = Some ("FINISHED_" ++ now)) as Hsd'.
  { unfold finished_record.
    by rewrite !lookup_insert_ne, lookup_insert_eq by done. }
  unfold shown_result. rewrite (init_Some _ _ Hsd').
  unfold Game.getResult, getitem. simpl.
  unfold finished_record. rewrite lookup_insert_eq. done.
Qed.

(** A game of the user "Tie", who has won it. *)
Lemma getResult_winner_named_Tie_witness :
  shown_result (finished_record won_record
                  (final_result "Win" "Tie" "alice" "Tie") now2) "Tie"
  = Ret (Some "Tie").
Proof.
  apply (getResult_winner_named_Tie won_record "alice" "Tie" "Tie" now2).
  by eexists.
Defined.

(** ** The listings *)

Section ListingLoop.

Lemma getGameInvites_loop_eq n (l acc : list ItemObj) (fault : exn) :
  getGameInvites_loop n (mkResultSet l fault) acc =
    if decide (n ≤ List.length l)%nat then Ret (Some (acc ++ take n l)%list)
    else match fault with
         | StopIteration | ValidationException => Ret (Some (acc ++ l)%list)
         | JSONResponseError type =>
             if bool_decide (type = ResourceNotFound) then Ret None
             else Raise (JSONResponseError type)
         | e => Raise e
         end.
Proof.
  revert l acc. induction n as [|n IH]; intros l acc.
  - cbn [getGameInvites_loop].
    destruct (decide (0 ≤ List.length l)%nat); [|lia].
    by rewrite take_0, app_nil_r.
  - destruct l as [|x l].
    + cbn [getGameInvites_loop next pending final].
      destruct (decide (S n ≤ List.length (@nil ItemObj))%nat) as [H|H];
        [simpl in H; lia|].
      rewrite app_nil_r. by destruct fault.
    + cbn [getGameInvites_loop next pending final]. rewrite IH.
      rewrite <- !app_assoc.
      destruct (decide (n ≤ List.length l)%nat) as [H|H];
        destruct (decide (S n ≤ List.length (x :: l))%nat) as [H'|H'];
        simpl in H'; try lia; done.
Qed.

End ListingLoop.

(** X12.  The loop of [getGameInvites] on any result set: with ten or
    more items it returns the first ten and never meets the fault behind
    them.  With fewer, the end of the results or a ValidationException
    gives the items read so far, a ResourceNotFound error gives None and
    drops the items already read, and any other error is raised. *)
Theorem getGameInvites_loop_faults (items : list ItemObj) (fault : exn) :
  ((10 ≤ List.length items)%nat →
     getGameInvites_loop 10 (mkResultSet items fault) []
     = Ret (Some (take 10 items)))
  ∧ ((List.length items < 10)%nat →
     getGameInvites_loop 10 (mkResultSet items fault) [] =
       match fault with
       | StopIteration | ValidationException => Ret (Some items)
       | JSONResponseError type =>
           if bool_decide (type = ResourceNotFound) then Ret None
           else Raise (JSONResponseError type)
       | e => Raise e
       end).
Proof.
  rewrite getGameInvites_loop_eq. split; intros H.
  - by destruct (decide (10 ≤ List.length items)%nat).
  - destruct (decide (10 ≤ List.length items)%nat); [lia|done].
Qed.

Section SortedListing.

Context {A : Type} (cmp : A → A → py comparison) (R : relation A).
Context `{!∀ x y, Decision (R x y)} `{!Transitive R} `{!Total R}.






End SortedListing.

Section StampedListing.

#[global] Instance newer_obj_dec a b : Decision (newer_obj a b).
Proof. unfold newer_obj. apply _. Defined.

#[global] Instance newer_obj_trans : Transitive newer_obj.
Proof.
  intros x y z Hxy Hyz. unfold newer_obj, newer_eq in *. by eapply leb_trans.
Qed.

#[global] Instance newer_obj_total : Total newer_obj.
Proof. intros x y. unfold newer_obj, newer_eq. apply String.leb_total. Qed.





End StampedListing.



(** ** Names and invitations *)

Section Names.






End Names.



(** ** Faults of the store and missing games *)

(** X15.  [rejectGameInvite] turns every fault of the store into False
    and leaves the database as it was, [acceptGameInvite] does so only
    for the failed condition: with the table missing a reject returns
    False where an accept raises the store's error. *)
Theorem invite_faults (game : ItemObj) (now g : string) :
  getitem game "GameId" = Some g → g ≠ "" →
  (∀ db, rejectGameInvite game db = (Ret false, db)
         ∨ ∃ db', rejectGameInvite game db = (Ret true, db'))
  ∧ rejectGameInvite game None = (Ret false, None)
  ∧ acceptGameInvite game now None =
      (Raise (JSONResponseError ResourceNotFound), None).
Proof.
  intros Hg Hne. split; [|split].
  - intros db. unfold rejectGameInvite.
    destruct (delete_item _ _ _); eauto.
  - unfold rejectGameInvite, delete_item, valid_key. rewrite Hg.
    by rewrite bool_decide_eq_false_2.
  - unfold acceptGameInvite, update_item, valid_key. rewrite Hg.
    rewrite bool_decide_eq_false_2 by done.
    rewrite bool_decide_eq_true_2; [done|].
    by apply map_Forall_singleton.
Qed.

Lemma invite_faults_witness :
  rejectGameInvite game_of_alice None = (Ret false, None).
Proof.
  apply (invite_faults game_of_alice now1 "g"); evaluated.
Defined.

(** X16.  A game that is not stored: /select answers with a message and
    goes back to the index, while /accept and /reject, which go on after
    their message, fail with a TypeError on the missing item.  None of
    them writes. *)
Theorem handlers_on_missing_game (tbl : Table)
    (gameId value username now : string) :
  tbl !! gameId = None →
  Application.selectSquare gameId value username (Some tbl) =
    (Ret (Application.mkResponse ["This is not a valid game."] "/index"),
     Some tbl)
  ∧ Application.accept gameId now (Some tbl) = (Raise TypeError, Some tbl)
  ∧ Application.reject gameId (Some tbl) = (Raise TypeError, Some tbl).
Proof.
  intros Hnone.
  unfold Application.selectSquare, Application.accept, Application.reject.
  by rewrite getGame_Some, Hnone.
Qed.

Lemma handlers_on_missing_game_witness :
  Application.accept "g1" now1 (Some ∅) = (Raise TypeError, Some ∅).
Proof.
  destruct (handlers_on_missing_game ∅ "g1" "TopLeft" "alice" now1)
    as (_ & Haccept & _); [reflexivity | exact Haccept].
Defined.


(** ** From the invitation to the first move *)



(** X19.  After a successful move the turn is with the player that
    [Game.getOpposingPlayer] names for the mover; for two different
    participants that is the other one, whose opposing player is the
    mover again. *)
Theorem turn_passes_to_opposing_player (tbl : Table) (rec : Item)
    (g h o position user : string) :
  tbl !! g = Some rec → rec !! "GameId" = Some g → g ≠ "" →
  rec !! "HostId" = Some h → rec !! "OpponentId" = Some o →
  position ∈ squares →
  status rec = Some IN_PROGRESS → rec !! "Turn" = Some user →
  rec !! position = None →
  ∃ game rec',
    Game.init (loaded rec) = Ret game
    ∧ updateBoardAndTurn (loaded rec) position user (Some tbl) =
        (Ret true, Some (<[g := rec']> tbl))
    ∧ rec' !! "Turn" = Game.getOpposingPlayer game user
    ∧ (h ≠ o → user = h ∨ user = o →
       ∃ other, Game.getOpposingPlayer game user = Some other
                ∧ other ≠ user
                ∧ Game.getOpposingPlayer game other = Some user).
Proof.
  intros Hrec Hg Hne Hh Ho Hin Hst Hturn Hpos.
  destruct (elem_of_squares _ Hin) as (_ & _ & _ & _ & HT & HS & _).
  destruct (status_StatusDate rec) as [sd Hsd]; [by rewrite Hst|].
  eexists. eexists. split; [by apply (init_Some rec sd)|].
  split; [by apply (move_succeeds (loaded rec) tbl rec g h o)|].
  unfold Game.getOpposingPlayer. cbn [Game.hostId Game.opponent].
  rewrite Hh, Ho. split.
  - rewrite lookup_insert_eq.
    destruct (decide (user = h)) as [->|Hu].
    + by rewrite !bool_decide_eq_true_2.
    + rewrite !bool_decide_eq_false_2; [done|congruence|done].
  - intros Hho [-> | ->].
    + exists o. rewrite bool_decide_eq_true_2 by done.
      rewrite bool_decide_eq_false_2 by congruence. by split.
    + exists h. rewrite bool_decide_eq_false_2 by congruence.
      rewrite bool_decide_eq_true_2 by done. by split.
Qed.

(** Bob moves in the game of Alice and Bob: the turn goes to Alice. *)
Lemma turn_passes_to_opposing_player_witness :
  ∃ game rec',
    Game.init (loaded in_progress_record) = Ret game
    ∧ updateBoardAndTurn (loaded in_progress_record) "TopLeft" "bob"
        (Some {[ "g" := in_progress_record ]}) =
        (Ret true, Some (<["g" := rec']> {[ "g" := in_progress_record ]}))
    ∧ rec' !! "Turn" = Game.getOpposingPlayer game "bob"
    ∧ ("alice" ≠ "bob" → "bob" = "alice" ∨ "bob" = "bob" →
       ∃ other, Game.getOpposingPlayer game "bob" = Some other
                ∧ other ≠ "bob"
                ∧ Game.getOpposingPlayer game other = Some "bob").
Proof.
  apply (turn_passes_to_opposing_player {[ "g" := in_progress_record ]}
           in_progress_record "g" "alice" "bob" "TopLeft" "bob");
    try evaluated.
  unfold squares. set_solver.
Defined.

(** ** The connection parameters *)

Section ConnectionParameters.

Lemma config_params_lookup config k :
  config_params config !! k = params_of config k.
Proof.
  unfold config_params, params_of, option_of.
  destruct config as [options|]; cbn [mbind option_bind].
  - destruct (options !! "region") as [r|], (options !! "endpoint") as [h|];
      cbn [fmap option_fmap option_map];
      repeat case_bool_decide; subst;
      by rewrite ?lookup_insert_eq, ?lookup_insert_ne, ?lookup_singleton_eq,
                 ?lookup_singleton_ne by done.
  - repeat case_bool_decide; subst;
      by rewrite ?lookup_singleton_eq, ?lookup_singleton_ne by done.
Qed.

Lemma getDynamoDBConnection_params_eq config endpoint use md :
  Setup.getDynamoDBConnection_params config endpoint use md =
    let params :=
      match endpoint with
      | Some host => delete "region" (<["host" := Setup.VStr host]> (config_params config))
      | None => config_params config
      end in
    if bool_decide (params !! "host" = None) && use then
      region ← md;
      Ret (delete "region"
             (<["host" := Setup.VStr (metadata_host region)]> params))
    else Ret params.
Proof. reflexivity. Qed.

Lemma host_only_lookup (params : gmap string Setup.value) host :
  params !! "is_secure" = Some (Setup.VBool true) →
  (∀ k, k ≠ "is_secure" → k ≠ "host" → k ≠ "region" → params !! k = None) →
  delete "region" (<["host" := Setup.VStr host]> params)
  = {[ "is_secure" := Setup.VBool true; "host" := Setup.VStr host ]}.
Proof.
  intros Hs Hk. apply map_eq. intros k.
  destruct (decide (k = "region")) as [->|Hr].
  { by rewrite lookup_delete_eq. }
  rewrite lookup_delete_ne by done.
  destruct (decide (k = "host")) as [->|Hh].
  { by rewrite lookup_insert_eq. }
  rewrite lookup_insert_ne by done.
  destruct (decide (k = "is_secure")) as [->|Hi].
  { by rewrite Hs. }
  rewrite Hk by done.
  by rewrite lookup_insert_ne, lookup_singleton_ne.
Qed.

Lemma config_params_host_only config host :
  delete "region" (<["host" := Setup.VStr host]> (config_params config))
  = {[ "is_secure" := Setup.VBool true; "host" := Setup.VStr host ]}.
Proof.
  apply host_only_lookup.
  - by rewrite config_params_lookup.
  - intros k ? ? ?. rewrite config_params_lookup. unfold params_of.
    by rewrite !bool_decide_eq_false_2.
Qed.

End ConnectionParameters.

(** X20.  The parameters of the connection: is_secure is always True.
    An endpoint argument gives exactly that host and no region,
    whatever the config says, and the instance metadata is not read.
    Without it and without an endpoint in the config, the metadata, if
    asked for, gives the host of its region and again no region, and a
    fault of the metadata is raised.  Otherwise the parameters are the
    region and the endpoint of the config. *)
Theorem getDynamoDBConnection_params_spec
    (config : option (gmap string string)) (endpoint : option string)
    (use_instance_metadata : bool) (metadata_region : py string) :
  (∀ host, endpoint = Some host →
     Setup.getDynamoDBConnection_params config endpoint use_instance_metadata
       metadata_region
     = Ret {[ "is_secure" := Setup.VBool true; "host" := Setup.VStr host ]})
  ∧ (endpoint = None → option_of config "endpoint" = None →
     use_instance_metadata = true →
     Setup.getDynamoDBConnection_params config endpoint use_instance_metadata
       metadata_region
     = match metadata_region with
       | Ret region =>
           Ret {[ "is_secure" := Setup.VBool true;
                  "host" := Setup.VStr (metadata_host region) ]}
       | Raise e => Raise e
       end)
  ∧ (endpoint = None →
     is_Some (option_of config "endpoint") ∨ use_instance_metadata = false →
     ∃ params,
       Setup.getDynamoDBConnection_params config endpoint use_instance_metadata
         metadata_region = Ret params
       ∧ ∀ k, params !! k = params_of config k).
Proof.
  rewrite getDynamoDBConnection_params_eq. split; [|split].
  - intros host ->. cbv zeta. rewrite config_params_host_only.
    by rewrite bool_decide_eq_false_2.
  - intros -> Hcfg ->. cbv zeta.
    rewrite bool_decide_eq_true_2.
    2:{ rewrite config_params_lookup. unfold params_of. simpl.
        by rewrite Hcfg. }
    destruct metadata_region as [region|e]; [|done].
    simpl. by rewrite config_params_host_only.
  - intros -> Hcase. cbv zeta. exists (config_params config). split.
    + destruct Hcase as [[h Hh]| ->]; [|by rewrite andb_false_r].
      rewrite bool_decide_eq_false_2; [done|].
      rewrite config_params_lookup. unfold params_of. simpl.
      by rewrite Hh.
    + apply config_params_lookup.
Qed.
